(** * Debate-Analyzer: the statistics of a debate and the XML export

    A shallow embedding of the scoring code of the server: the loop of
    [GET /api/debates/:id] (one debate), the loop of [GET /api/debates]
    (all debates, through [statsMap]) and [escapeXml] with the document of
    [GET /api/debates/:id/export-xml].

    Conventions of the model.
    - A JavaScript string is its sequence of UTF-16 code units, a [list N];
      [.length] is the length of that list and [===] on two strings is
      equality of the sequences.  [lit] turns an ASCII literal of the source
      into such a sequence.
    - The counters are JavaScript numbers that start at 0 and grow by 1 or 2
      per array element; an array has fewer than 2^32 elements, so every value
      is an integer below 2^53 and the arithmetic is exact: they are [nat].
    - A [Set] of strings is a [gset]; only [add] and [size] are used.
    - [statsMap] is an object keyed by the hexadecimal rendering of an
      [ObjectId], which is injective: a [gmap] keyed by the identifier.
    - A [TypeError] raised inside a handler (caught there and answered with
      status 500) is [None]. *)

From Stdlib Require Import Ascii.
From stdpp Require Import gmap strings list fin_maps fin_sets sorting.

(** ** Strings *)

Abbreviation jsstring := (list N).

Fixpoint lit (s : string) : jsstring :=
  match s with
  | EmptyString => []
  | String c s' => Ascii.N_of_ascii c :: lit s'
  end.

(** [str.replace(/c/g, r)] for a one-character pattern [c] and a replacement
    [r] without [$]: every occurrence of the code unit is replaced. *)
Definition replace_g (c : N) (r : jsstring) (str : jsstring) : jsstring :=
  str ≫= (λ u, if decide (u = c) then r else [u]).

(** ** Documents *)

Abbreviation ObjectId := N.

(** [models/Argument.js], with the [_id] and the timestamps mongoose adds. *)
Record Argument := mkArgument {
  arg_id : ObjectId;
  debate : ObjectId;
  side : jsstring;
  text : jsstring;
  authorName : jsstring;
  user : option ObjectId;
  createdAt : Z;
  updatedAt : Z
}.

(** The fields of a debate document that the handlers read. *)
Record Debate := mkDebate {
  _id : ObjectId;
  title : jsstring;
  description : option jsstring;
  createdBy : ObjectId
}.

(** The [stats] object; [for] is a keyword here, hence [for_]. *)
Record Stats := mkStats {
  for_ : nat;
  against : nat;
  participants : nat;
  forPoints : nat;
  againstPoints : nat;
  winner : jsstring
}.

(** ** GET /api/debates/:id *)

Module Detail.

(** The object literal [stats] and the fresh [participantsSet]. *)
Definition stats0 : Stats := mkStats 0 0 0 0 0 (lit "DRAW").

(** The body of [argumentsList.forEach]. *)
Definition visit (acc : Stats * gset jsstring) (arg : Argument)
  : Stats * gset jsstring :=
  let '(stats, participantsSet) := acc in
  let isLong := if bool_decide (120 ≤ length (text arg)) then 1 else 0 in
  let participantsSet := participantsSet ∪ {[ authorName arg ]} in
  if decide (side arg = lit "for") then
    (mkStats (for_ stats + 1) (against stats) (participants stats)
             (forPoints stats + (1 + isLong)) (againstPoints stats)
             (winner stats),
     participantsSet)
  else
    (mkStats (for_ stats) (against stats + 1) (participants stats)
             (forPoints stats) (againstPoints stats + (1 + isLong))
             (winner stats),
     participantsSet).

(** [stats.participants = participantsSet.size] and the winner. *)
Definition finish (acc : Stats * gset jsstring) : Stats :=
  let '(stats, participantsSet) := acc in
  let stats := mkStats (for_ stats) (against stats) (size participantsSet)
                       (forPoints stats) (againstPoints stats)
                       (winner stats) in
  if bool_decide (againstPoints stats < forPoints stats) then
    mkStats (for_ stats) (against stats) (participants stats)
            (forPoints stats) (againstPoints stats) (lit "FOR")
  else if bool_decide (forPoints stats < againstPoints stats) then
    mkStats (for_ stats) (against stats) (participants stats)
            (forPoints stats) (againstPoints stats) (lit "AGAINST")
  else
    mkStats (for_ stats) (against stats) (participants stats)
            (forPoints stats) (againstPoints stats) (lit "DRAW").

(** The [stats] of the response, from the declaration of [stats] to the
    winner: what the specification calls [computeStats]. *)
Definition computeStats (argumentsList : list Argument) : Stats :=
  finish (foldl visit (stats0, ∅) argumentsList).

End Detail.

(** ** GET /api/debates *)

Module Listing.

(** An entry of [statsMap]: the stats object with its [participantSet]
    property, which [delete] removes at the end. *)
Definition entry0 : Stats * gset jsstring :=
  (mkStats 0 0 0 0 0 (lit "DRAW"), ∅).

(** [debates.forEach(d => statsMap[d._id] = {...})] on [statsMap = {}]. *)
Definition init (debates : list Debate) : gmap N (Stats * gset jsstring) :=
  foldl (λ statsMap d, <[ _id d := entry0 ]> statsMap) ∅ debates.

(** The body of [argumentsList.forEach].  [st] is a reference into
    [statsMap]: the updates of its fields are an update of the map at
    [arg.debate].  When [statsMap[arg.debate]] is [undefined], reading
    [st.participantSet] throws. *)
Definition visit (statsMap : gmap N (Stats * gset jsstring)) (arg : Argument)
  : option (gmap N (Stats * gset jsstring)) :=
  let st := statsMap !! debate arg in
  let isLong := if bool_decide (120 ≤ length (text arg)) then 1 else 0 in
  match st with
  | None => None
  | Some (st, participantSet) =>
      let participantSet := participantSet ∪ {[ authorName arg ]} in
      if decide (side arg = lit "for") then
        Some (<[ debate arg :=
                 (mkStats (for_ st + 1) (against st) (participants st)
                          (forPoints st + (1 + isLong)) (againstPoints st)
                          (winner st),
                  participantSet) ]> statsMap)
      else
        Some (<[ debate arg :=
                 (mkStats (for_ st) (against st + 1) (participants st)
                          (forPoints st) (againstPoints st + (1 + isLong))
                          (winner st),
                  participantSet) ]> statsMap)
  end.

(** [forEach] with a body that may throw: the first exception ends it. *)
Fixpoint forEach (statsMap : gmap N (Stats * gset jsstring))
    (argumentsList : list Argument)
  : option (gmap N (Stats * gset jsstring)) :=
  match argumentsList with
  | [] => Some statsMap
  | arg :: rest =>
      match visit statsMap arg with
      | None => None
      | Some statsMap => forEach statsMap rest
      end
  end.

(** The body of [Object.values(statsMap).forEach]. *)
Definition final (e : Stats * gset jsstring) : Stats :=
  let '(st, participantSet) := e in
  let st := mkStats (for_ st) (against st) (size participantSet)
                    (forPoints st) (againstPoints st) (winner st) in
  if bool_decide (againstPoints st < forPoints st) then
    mkStats (for_ st) (against st) (participants st)
            (forPoints st) (againstPoints st) (lit "FOR")
  else if bool_decide (forPoints st < againstPoints st) then
    mkStats (for_ st) (against st) (participants st)
            (forPoints st) (againstPoints st) (lit "AGAINST")
  else
    mkStats (for_ st) (against st) (participants st)
            (forPoints st) (againstPoints st) (lit "DRAW").

(** The alternative of [statsMap[d._id] || {...}]. *)
Definition fallback : Stats := mkStats 0 0 0 0 0 (lit "DRAW").

(** The [result] array: every debate with its [stats]. *)
Definition computeStats (debates : list Debate)
    (argumentsList : list Argument) : option (list (Debate * Stats)) :=
  match forEach (init debates) argumentsList with
  | None => None
  | Some statsMap =>
      let statsMap := final <$> statsMap in
      Some ((λ d, (d, default fallback (statsMap !! _id d))) <$> debates)
  end.

End Listing.

(** ** The queries *)

(** The [arguments] collection is a list of documents.
    [Argument.find({ debate: { $in: debateIds } })]. *)
Definition find_in (debateIds : list N) (coll : list Argument)
  : list Argument :=
  filter (λ a, debate a ∈ debateIds) coll.

(** The order of [sort({ createdAt: 1 })]. *)
Definition older (a b : Argument) : Prop := (createdAt a ≤ createdAt b)%Z.

#[global] Instance older_dec : RelDecision older.
Proof. intros a b. unfold older. apply _. Defined.

(** [Argument.find({ debate: id }).sort({ createdAt: 1 })]. *)
Definition find_sorted (id : N) (coll : list Argument) : list Argument :=
  merge_sort older (filter (λ a, debate a = id) coll).

(** ** GET /api/debates/:id/export-xml *)

(** The code unit of an ASCII character; [dquote] is the double quote. *)
Definition chr (c : Ascii.ascii) : N := Ascii.N_of_ascii c.
Definition dquote : N := 34.
Arguments chr c%_char.

Definition escapeXml (str : jsstring) : jsstring :=
  replace_g (chr "'") (lit "&apos;")
    (replace_g dquote (lit "&quot;")
      (replace_g (chr ">") (lit "&gt;")
        (replace_g (chr "<") (lit "&lt;")
          (replace_g (chr "&") (lit "&amp;") str)))).

Section export.

(** The renderings the template literals call: of an [ObjectId] and
    [Date.prototype.toISOString]. *)
Variable hex : N → jsstring.
Variable toISOString : Z → jsstring.

Definition nl : jsstring := [10%N].
Definition quot : jsstring := [dquote].

(** The body of [argumentsList.forEach] of the export. *)
Definition export_argument (xml : jsstring) (arg : Argument) : jsstring :=
  let xml := xml ++ (lit "    <argument side=" ++ quot ++ side arg ++ quot
                     ++ lit " author=" ++ quot ++ escapeXml (authorName arg)
                     ++ quot ++ lit ">" ++ nl) in
  let xml := xml ++ (lit "      <text>" ++ escapeXml (text arg)
                     ++ lit "</text>" ++ nl) in
  let xml := xml ++ (lit "      <createdAt>" ++ toISOString (createdAt arg)
                     ++ lit "</createdAt>" ++ nl) in
  xml ++ (lit "    </argument>" ++ nl).

Definition export_xml (d : Debate) (argumentsList : list Argument)
  : jsstring :=
  let xml := lit "<?xml version=" ++ quot ++ lit "1.0" ++ quot
             ++ lit " encoding=" ++ quot ++ lit "UTF-8" ++ quot ++ lit "?>"
             ++ nl in
  let xml := xml ++ (lit "<debate id=" ++ quot ++ hex (_id d) ++ quot
                     ++ lit ">" ++ nl) in
  let xml := xml ++ (lit "  <title>" ++ escapeXml (title d)
                     ++ lit "</title>" ++ nl) in
  let xml := xml ++ (lit "  <description>"
                     ++ escapeXml (default [] (description d))
                     ++ lit "</description>" ++ nl) in
  let xml := xml ++ (lit "  <arguments>" ++ nl) in
  let xml := foldl export_argument xml argumentsList in
  let xml := xml ++ (lit "  </arguments>" ++ nl) in
  xml ++ (lit "</debate>" ++ nl).

End export.

(** ** Replies *)

(** What a handler sends: a JSON body with its status, or a status with a
    message ([res.status(s).json({ message })], [res.status(s).send(text)]). *)
Inductive Reply (A : Type) : Type :=
  | Json (status : nat) (body : A)
  | Message (status : nat) (message : jsstring).
Arguments Json {A} status body.
Arguments Message {A} status message.

(** The payload of a token, as the login signs it. *)
Record Payload := mkPayload {
  userId : ObjectId;
  username : jsstring
}.

(** ** authMiddleware *)

(** [s.startsWith(p)]. *)
Fixpoint startsWith (s p : jsstring) {struct p} : bool :=
  match p, s with
  | [], _ => true
  | _ :: _, [] => false
  | c :: p', d :: s' => bool_decide (d = c) && startsWith s' p'
  end.

(** [s.split(sep)] for a separator of one code unit: the pieces between
    the occurrences of the separator; the empty string gives one empty
    piece. *)
Fixpoint split (sep : N) (s : jsstring) : list jsstring :=
  match s with
  | [] => [[]]
  | u :: r =>
      if decide (u = sep) then [] :: split sep r
      else match split sep r with
           | [] => [[u]]
           | piece :: pieces => (u :: piece) :: pieces
           end
  end.

(** The outcome of the middleware: [next()] with [req.user] set, or the
    reply it sends itself. *)
Inductive Checked : Type :=
  | Next (user : Payload)
  | Refused (status : nat) (message : jsstring).

Section auth.

(** [jwt.verify(token, process.env.JWT_SECRET)] at the time of the request:
    the payload, or [None] when it throws.  Called on [undefined] it
    throws. *)
Variable jwt_verify : jsstring → option Payload.

Definition authMiddleware (authHeader : option jsstring) : Checked :=
  match authHeader with
  | None => Refused 401 (lit "No token")
  | Some authHeader =>
      if negb (startsWith authHeader (lit "Bearer ")) then
        Refused 401 (lit "No token")
      else
        let token := split 32 authHeader !! 1 in
        match token ≫= jwt_verify with
        | Some payload => Next payload
        | None => Refused 401 (lit "Invalid token")
        end
  end.

End auth.

(** ** The client: public/common.js *)

(** [localStorage] is a map from keys to strings; the header objects are
    maps from header names to values. *)
Definition getToken (localStorage : gmap (list N) (list N))
  : option jsstring :=
  localStorage !! lit "token".

Definition setToken (token : jsstring)
    (localStorage : gmap (list N) (list N)) : gmap (list N) (list N) :=
  <[ lit "token" := token ]> localStorage.

(** [token ? {...} : {}]: [null] and the empty string are falsy. *)
Definition authHeaders (localStorage : gmap (list N) (list N))
  : gmap (list N) (list N) :=
  match getToken localStorage with
  | Some (u :: token) =>
      <[ lit "Authorization" := lit "Bearer " ++ u :: token ]>
        (<[ lit "Content-Type" := lit "application/json" ]> ∅)
  | _ => ∅
  end.

(** [requireAuth] as a function of [window.location.href]. *)
Definition requireAuth (localStorage : gmap (list N) (list N))
    (href : jsstring) : jsstring :=
  match getToken localStorage with
  | Some (_ :: _) => href
  | _ => lit "/index.html"
  end.

(** The [Authorization] header of a request, which the server reads as
    [req.headers.authorization]. *)
Definition sent_authorization (headers : gmap (list N) (list N))
  : option jsstring :=
  headers !! lit "Authorization".

(** ** POST /api/auth/register and POST /api/auth/login *)

Module User.

(** The fields of a user document that the handlers read and write. *)
Record t := mk {
  _id : ObjectId;
  username : jsstring;
  passwordHash : jsstring
}.

End User.

(** [!v] on a field of the body that is a string or absent. *)
Definition falsy (v : option jsstring) : bool :=
  match v with
  | Some (_ :: _) => false
  | _ => true
  end.

(** [User.findOne({ username })]: the first user of that name. *)
Definition User_findOne (name : jsstring) (users : list User.t)
  : option User.t :=
  List.find (λ u, bool_decide (User.username u = name)) users.

Section accounts.

(** [bcrypt.hash(password, 10)] with the salt it draws, and
    [bcrypt.compare]. *)
Variable bcrypt_hash : jsstring → N → jsstring.
Variable bcrypt_compare : jsstring → jsstring → bool.

(** The validators of [models/User.js], which is not among the sources:
    when they refuse, [User.create] throws. *)
Variable User_valid : jsstring → jsstring → bool.

(** [jwt.sign(payload, process.env.JWT_SECRET, { expiresIn: '7d' })] at the
    time of the request. *)
Variable jwt_sign : Payload → jsstring.

(** The register handler on the collection of users; [fresh] is the
    identifier the new document receives and [salt] the salt of the hash.
    The body is [(message, userId)]. *)
Definition register (username password : option jsstring)
    (fresh : ObjectId) (salt : N) (users : list User.t)
  : Reply (jsstring * ObjectId) * list User.t :=
  if falsy username || falsy password then
    (Message 400 (lit "Username & password required"), users)
  else
    let username := default [] username in
    let password := default [] password in
    match User_findOne username users with
    | Some existing => (Message 400 (lit "Username already taken"), users)
    | None =>
        let passwordHash := bcrypt_hash password salt in
        if User_valid username passwordHash then
          let user := User.mk fresh username passwordHash in
          (Json 201 (lit "User registered", User._id user), users ++ [user])
        else
          (Message 500 (lit "Server error"), users)
    end.

(** The login handler, for a body that carries the two strings; the body
    of the reply is the token. *)
Definition login (username password : jsstring) (users : list User.t)
  : Reply jsstring :=
  match User_findOne username users with
  | None => Message 400 (lit "Invalid credentials")
  | Some user =>
      if negb (bcrypt_compare password (User.passwordHash user)) then
        Message 400 (lit "Invalid credentials")
      else
        Json 200 (jwt_sign (mkPayload (User._id user) (User.username user)))
  end.

End accounts.

(** ** POST /api/debates/:id/arguments *)

(** [Debate.findById(id)]. *)
Definition Debate_findById (id : N) (debates : list Debate) : option Debate :=
  List.find (λ d, bool_decide (_id d = id)) debates.

(** [Argument.create(doc)] under the schema of [models/Argument.js]:
    [side], [text] and [authorName] are required strings (a required string
    is present and not empty), [side] is one of the two values of the
    [enum]; a document the validators refuse makes [create] throw.  The new
    document receives the identifier [fresh] and the timestamps [now]. *)
Definition Argument_create (fresh : ObjectId) (now : Z) (debate : ObjectId)
    (side text authorName : option jsstring) (user : option ObjectId)
    (coll : list Argument) : option (Argument * list Argument) :=
  match side, text, authorName with
  | Some side, Some text, Some authorName =>
      if bool_decide (side ∈ [lit "for"; lit "against"]
                      ∧ side ≠ [] ∧ text ≠ [] ∧ authorName ≠ []) then
        let arg := mkArgument fresh debate side text authorName user now now in
        Some (arg, coll ++ [arg])
      else None
  | _, _, _ => None
  end.

(** [a || b] on a string that may be absent: the empty string is falsy. *)
Definition or_else (a : option jsstring) (b : jsstring) : jsstring :=
  match a with
  | Some (u :: a) => u :: a
  | _ => b
  end.

(** The handler, after [authMiddleware] has set [req.user]. *)
Definition addArgument (user : Payload) (id : ObjectId)
    (side text authorName : option jsstring)
    (fresh : ObjectId) (now : Z)
    (debates : list Debate) (coll : list Argument)
  : Reply Argument * list Argument :=
  if negb (bool_decide (side ∈ [Some (lit "for"); Some (lit "against")])) then
    (Message 400 (lit "Side must be for/against"), coll)
  else
    match Debate_findById id debates with
    | None => (Message 404 (lit "Debate not found"), coll)
    | Some debate =>
        match Argument_create fresh now id side text
                (Some (or_else authorName (username user)))
                (Some (userId user)) coll with
        | Some (arg, coll) => (Json 201 arg, coll)
        | None => (Message 500 (lit "Server error"), coll)
        end
    end.

(** ** The single-debate handler and the export, as handlers *)

(** The body of the reply of [GET /api/debates/:id]: the debate, its
    arguments and the stats. *)
Definition getDebate (id : ObjectId)
    (debates : list Debate) (coll : list Argument)
  : Reply (Debate * list Argument * Stats) :=
  match Debate_findById id debates with
  | None => Message 404 (lit "Debate not found")
  | Some debate =>
      let argumentsList := find_sorted id coll in
      Json 200 (debate, argumentsList, Detail.computeStats argumentsList)
  end.

(** * The vocabulary of the specification *)

(** The points one argument brings, as the specification words them. *)
Definition points (a : Argument) : nat :=
  if bool_decide (length (text a) < 120) then 1 else 2.

Definition is_for (a : Argument) : Prop := side a = lit "for".

#[global] Instance is_for_dec a : Decision (is_for a).
Proof. unfold is_for. apply _. Defined.

Definition for_side (l : list Argument) : list Argument :=
  filter is_for l.
Definition against_side (l : list Argument) : list Argument :=
  filter (λ a, ¬ is_for a) l.
Definition total (l : list Argument) : nat := sum_list_with points l.
Definition authors (l : list Argument) : gset jsstring :=
  list_to_set (authorName <$> l).

(** The winner as a function of the two totals. *)
Definition decide_winner (f a : nat) : jsstring :=
  if bool_decide (a < f) then lit "FOR"
  else if bool_decide (f < a) then lit "AGAINST"
  else lit "DRAW".


(** The arguments of debate [k] in the order of the list. *)
Definition of_debate (k : N) (l : list Argument) : list Argument :=
  filter (λ a, debate a = k) l.

(** Two arguments with the same data for the scorer: the fields it does
    not read (identifiers, timestamps) may differ. *)
Definition same_content (a b : Argument) : Prop :=
  side a = side b ∧ text a = text b ∧ authorName a = authorName b.

(** The escaping of one code unit, in one pass. *)
Definition escape_unit (u : N) : jsstring :=
  if decide (u = chr "&") then lit "&amp;"
  else if decide (u = chr "<") then lit "&lt;"
  else if decide (u = chr ">") then lit "&gt;"
  else if decide (u = dquote) then lit "&quot;"
  else if decide (u = chr "'") then lit "&apos;"
  else [u].

(** The content of an XML element: every code unit escaped on its own. *)
Definition xml_text (s : jsstring) : jsstring := s ≫= escape_unit.

Section document.

Variable hex : N → jsstring.
Variable toISOString : Z → jsstring.

(** One [<argument>] element of the exported document. *)
Definition argument_element (a : Argument) : jsstring :=
  (lit "    <argument side=" ++ quot ++ side a ++ quot ++ lit " author="
   ++ quot ++ xml_text (authorName a) ++ quot ++ lit ">" ++ nl)
  ++ (lit "      <text>" ++ xml_text (text a) ++ lit "</text>" ++ nl)
  ++ (lit "      <createdAt>" ++ toISOString (createdAt a)
      ++ lit "</createdAt>" ++ nl)
  ++ (lit "    </argument>" ++ nl).

(** The exported document, element by element. *)
Definition document (d : Debate) (l : list Argument) : jsstring :=
  (lit "<?xml version=" ++ quot ++ lit "1.0" ++ quot ++ lit " encoding="
   ++ quot ++ lit "UTF-8" ++ quot ++ lit "?>" ++ nl)
  ++ (lit "<debate id=" ++ quot ++ hex (_id d) ++ quot ++ lit ">" ++ nl)
  ++ (lit "  <title>" ++ xml_text (title d) ++ lit "</title>" ++ nl)
  ++ (lit "  <description>" ++ xml_text (default [] (description d))
      ++ lit "</description>" ++ nl)
  ++ (lit "  <arguments>" ++ nl)
  ++ (l ≫= argument_element)
  ++ (lit "  </arguments>" ++ nl)
  ++ (lit "</debate>" ++ nl).

End document.

(** ** Reading an escaped text back *)

(** The inverse reading of the five entities; any other code unit, also an
    [&] that starts none of them, is kept. *)
Fixpoint unescape (s : jsstring) : jsstring :=
  match s with
  | [] => []
  | 38%N :: 97%N :: 109%N :: 112%N :: 59%N :: r => 38%N :: unescape r
  | 38%N :: 108%N :: 116%N :: 59%N :: r => 60%N :: unescape r
  | 38%N :: 103%N :: 116%N :: 59%N :: r => 62%N :: unescape r
  | 38%N :: 113%N :: 117%N :: 111%N :: 116%N :: 59%N :: r =>
      34%N :: unescape r
  | 38%N :: 97%N :: 112%N :: 111%N :: 115%N :: 59%N :: r =>
      39%N :: unescape r
  | u :: r => u :: unescape r
  end.

(** The code units [escapeXml] rewrites. *)
Definition special (u : N) : Prop :=
  u ∈ [chr "&"; chr "<"; chr ">"; dquote; chr "'"].

#[global] Instance special_dec u : Decision (special u).
Proof. unfold special. apply _. Defined.

(** An argument that earns the length bonus. *)
Definition long (a : Argument) : Prop := 120 ≤ length (text a).

#[global] Instance long_dec a : Decision (long a).
Proof. unfold long. apply _. Defined.

(** ** Arguments that came through the handler *)

(** What the handler and the schema let through. *)
Definition stored_ok (a : Argument) : Prop :=
  (side a = lit "for" ∨ side a = lit "against")
  ∧ text a ≠ [] ∧ authorName a ≠ [].

(** One call of the handler: the user of the token, the identifier in the
    path, the three fields of the body, and the identifier and the time the
    new document would receive. *)
Record Request := mkRequest {
  rq_user : Payload;
  rq_id : ObjectId;
  rq_side : option jsstring;
  rq_text : option jsstring;
  rq_authorName : option jsstring;
  rq_fresh : ObjectId;
  rq_now : Z
}.

(** The collection after a sequence of calls. *)
Definition replay (debates : list Debate) (requests : list Request)
    (coll : list Argument) : list Argument :=
  foldl (λ coll r,
           (addArgument (rq_user r) (rq_id r) (rq_side r) (rq_text r)
                        (rq_authorName r) (rq_fresh r) (rq_now r)
                        debates coll).2)
        coll requests.

(** ** Sample documents *)

(** An argument of debate 7 posted at time [i]. *)
Definition sample (i : N) (side text authorName : jsstring) : Argument :=
  mkArgument i 7 side text authorName None (Z.of_N i) (Z.of_N i).

Definition debate7 : Debate := mkDebate 7 (lit "Tabs & spaces") None 1.

Definition alice_bob : list Argument :=
  [sample 1 (lit "for") (replicate 50 (chr "a")) (lit "Alice");
   sample 2 (lit "against") (replicate 200 (chr "b")) (lit "Bob")].

Definition two_against_one : list Argument :=
  [sample 1 (lit "for") (lit "x") (lit "A");
   sample 2 (lit "for") (lit "y") (lit "B");
   sample 3 (lit "against") (replicate 150 (chr "z")) (lit "C")].

(** * Properties *)

(** ** What the fold of the single-debate handler computes *)

Lemma bonus_points a :
  1 + (if bool_decide (120 ≤ length (text a)) then 1 else 0) = points a.
Proof. unfold points. repeat case_bool_decide; lia. Qed.

Lemma visit_for s P a :
  is_for a →
  Detail.visit (s, P) a =
    (mkStats (for_ s + 1) (against s) (participants s)
             (forPoints s + points a) (againstPoints s) (winner s),
     P ∪ {[ authorName a ]}).
Proof.
  intros Ha. unfold Detail.visit. rewrite bonus_points.
  destruct (decide (side a = lit "for")) as [_|Hn]; [done|]. by destruct Hn.
Qed.

Lemma visit_against s P a :
  ¬ is_for a →
  Detail.visit (s, P) a =
    (mkStats (for_ s) (against s + 1) (participants s)
             (forPoints s) (againstPoints s + points a) (winner s),
     P ∪ {[ authorName a ]}).
Proof.
  intros Ha. unfold Detail.visit. rewrite bonus_points.
  destruct (decide (side a = lit "for")) as [Hy|_]; [by destruct Ha|done].
Qed.

Lemma for_side_cons a l :
  for_side (a :: l) = if decide (is_for a) then a :: for_side l else for_side l.
Proof. unfold for_side. rewrite filter_cons. by case_decide. Qed.

Lemma against_side_cons a l :
  against_side (a :: l) =
    if decide (is_for a) then against_side l else a :: against_side l.
Proof.
  unfold against_side. rewrite filter_cons.
  destruct (decide (is_for a)), (decide (¬ is_for a)); tauto.
Qed.

Lemma total_cons a l : total (a :: l) = points a + total l.
Proof. reflexivity. Qed.

Lemma authors_cons a l : authors (a :: l) = {[ authorName a ]} ∪ authors l.
Proof. reflexivity. Qed.

Lemma foldl_visit l : ∀ s P,
  foldl Detail.visit (s, P) l =
    (mkStats (for_ s + length (for_side l))
             (against s + length (against_side l))
             (participants s)
             (forPoints s + total (for_side l))
             (againstPoints s + total (against_side l))
             (winner s),
     P ∪ authors l).
Proof.
  induction l as [|a l IH]; intros s P.
  - destruct s. cbn. rewrite (right_id_L ∅ (∪)). do 2 f_equal; lia.
  - cbn [foldl]. rewrite for_side_cons, against_side_cons, authors_cons.
    rewrite (assoc_L (∪)).
    destruct (decide (is_for a)) as [Ha|Ha].
    + rewrite (visit_for _ _ _ Ha), IH, total_cons. cbn.
      do 2 f_equal; lia.
    + rewrite (visit_against _ _ _ Ha), IH, total_cons. cbn.
      do 2 f_equal; lia.
Qed.

Lemma finish_eq s P :
  Detail.finish (s, P) =
    mkStats (for_ s) (against s) (size P) (forPoints s) (againstPoints s)
            (decide_winner (forPoints s) (againstPoints s)).
Proof.
  unfold Detail.finish, decide_winner. simpl.
  repeat case_bool_decide; reflexivity.
Qed.

Lemma computeStats_eq l :
  Detail.computeStats l =
    mkStats (length (for_side l)) (length (against_side l))
            (size (authors l))
            (total (for_side l)) (total (against_side l))
            (decide_winner (total (for_side l)) (total (against_side l))).
Proof.
  unfold Detail.computeStats. rewrite foldl_visit, finish_eq. simpl.
  by rewrite (left_id_L ∅ (∪)).
Qed.

(** ** Order *)

Lemma computeStats_perm l l' :
  l ≡ₚ l' → Detail.computeStats l = Detail.computeStats l'.
Proof.
  intros Hp. rewrite !computeStats_eq.
  unfold for_side, against_side, authors, total.
  assert (Hf : filter is_for l ≡ₚ filter is_for l') by by rewrite Hp.
  assert (Ha : filter (λ a, ¬ is_for a) l ≡ₚ filter (λ a, ¬ is_for a) l')
    by by rewrite Hp.
  assert (Hn : authorName <$> l ≡ₚ authorName <$> l') by by rewrite Hp.
  rewrite (Permutation_length Hf), (Permutation_length Ha).
  rewrite (sum_list_with_Permutation_proper points _ _ Hf).
  rewrite (sum_list_with_Permutation_proper points _ _ Ha).
  by rewrite (list_to_set_perm_L _ _ Hn).
Qed.

(** ** The list handler, debate by debate *)

Lemma listing_final e : Listing.final e = Detail.finish e.
Proof. destruct e as [st P]. reflexivity. Qed.

Lemma listing_visit m a e :
  m !! debate a = Some e →
  Listing.visit m a = Some (<[ debate a := Detail.visit e a ]> m).
Proof.
  intros He. unfold Listing.visit, Detail.visit. rewrite He.
  destruct e as [st P]. by case_decide.
Qed.

Lemma listing_visit_undefined m a :
  m !! debate a = None → Listing.visit m a = None.
Proof. intros He. unfold Listing.visit. by rewrite He. Qed.

Lemma listing_forEach l : ∀ m,
  (∀ a, a ∈ l → is_Some (m !! debate a)) →
  ∃ m', Listing.forEach m l = Some m' ∧
        ∀ k, m' !! k = (λ e, foldl Detail.visit e (of_debate k l)) <$> m !! k.
Proof.
  unfold of_debate. induction l as [|a l IH]; intros m Hm.
  - exists m. split; [done|]. intros k. by destruct (m !! k).
  - destruct (Hm a) as [e He]; [left|].
    cbn [Listing.forEach]. rewrite (listing_visit _ _ _ He).
    destruct (IH (<[ debate a := Detail.visit e a ]> m)) as (m' & Hrun & Hm').
    { intros b Hb. destruct (decide (debate a = debate b)) as [<-|Hne].
      - rewrite lookup_insert_eq. eauto.
      - rewrite lookup_insert_ne by done. apply Hm. by right. }
    exists m'. split; [done|]. intros k. rewrite Hm', filter_cons.
    destruct (decide (debate a = k)) as [<-|Hne].
    + by rewrite lookup_insert_eq, He.
    + by rewrite lookup_insert_ne.
Qed.

Lemma listing_forEach_throws l : ∀ m,
  (∃ a, a ∈ l ∧ m !! debate a = None) → Listing.forEach m l = None.
Proof.
  induction l as [|a l IH]; intros m (b & Hb & Hnone).
  - by apply elem_of_nil in Hb.
  - cbn [Listing.forEach].
    destruct (m !! debate a) as [e|] eqn:He.
    + rewrite (listing_visit _ _ _ He). apply IH.
      apply elem_of_cons in Hb as [->|Hb]; [congruence|].
      exists b. split; [done|].
      destruct (decide (debate a = debate b)) as [Heq|Hne].
      * congruence.
      * by rewrite lookup_insert_ne.
    + by rewrite (listing_visit_undefined _ _ He).
Qed.

Lemma listing_init debates k :
  Listing.init debates !! k =
    if decide (k ∈ _id <$> debates) then Some Listing.entry0 else None.
Proof.
  unfold Listing.init.
  induction debates as [|d debates IH] using rev_ind.
  - simpl. by rewrite lookup_empty.
  - rewrite foldl_snoc, fmap_app. simpl.
    destruct (decide (_id d = k)) as [<-|Hne].
    + rewrite lookup_insert_eq, decide_True; [done|].
      apply elem_of_app. right. by left.
    + rewrite lookup_insert_ne, IH by done.
      destruct (decide (k ∈ _id <$> debates)) as [Hin|Hin].
      * rewrite decide_True; [done|]. apply elem_of_app. by left.
      * rewrite decide_False; [done|]. intros [H|H]%elem_of_app; [done|].
        apply list_elem_of_singleton in H. congruence.
Qed.

Lemma listing_computeStats debates l :
  (∀ a, a ∈ l → debate a ∈ _id <$> debates) →
  Listing.computeStats debates l =
    Some ((λ d, (d, Detail.computeStats (of_debate (_id d) l))) <$> debates).
Proof.
  intros Hl. unfold Listing.computeStats.
  destruct (listing_forEach l (Listing.init debates)) as (m & -> & Hm).
  { intros a Ha. rewrite listing_init. rewrite decide_True by auto. eauto. }
  f_equal. apply Forall_fmap_ext_1, Forall_forall. intros d Hd.
  f_equal. rewrite lookup_fmap, Hm, listing_init.
  rewrite decide_True by (by apply list_elem_of_fmap_2).
  simpl. by rewrite listing_final.
Qed.


(** ** The queries *)

Lemma find_in_elem ids coll a : a ∈ find_in ids coll → debate a ∈ ids.
Proof. unfold find_in. rewrite list_elem_of_filter. tauto. Qed.

Lemma of_debate_find_in ids k coll :
  k ∈ ids → of_debate k (find_in ids coll) = of_debate k coll.
Proof.
  intros Hk. unfold of_debate, find_in.
  induction coll as [|a coll IH]; [done|].
  rewrite (filter_cons (λ a, debate a ∈ ids)), (filter_cons _ a coll).
  destruct (decide (debate a ∈ ids)) as [Hin|Hout].
  - rewrite filter_cons, IH. done.
  - rewrite IH. destruct (decide (debate a = k)) as [<-|]; [done|done].
Qed.

Lemma find_sorted_perm id coll : find_sorted id coll ≡ₚ of_debate id coll.
Proof. apply merge_sort_Permutation. Qed.

Lemma listing_handler debates coll :
  Listing.computeStats debates (find_in (_id <$> debates) coll) =
    Some ((λ d, (d, Detail.computeStats (of_debate (_id d) coll))) <$> debates).
Proof.
  rewrite listing_computeStats by (intros a; apply find_in_elem).
  f_equal. apply Forall_fmap_ext_1, Forall_forall. intros d Hd.
  by rewrite of_debate_find_in by (by apply list_elem_of_fmap_2).
Qed.

(** ** Participants *)

Lemma size_authors l :
  size (authors l) = length (remove_dups (authorName <$> l)).
Proof.
  unfold authors.
  rewrite <- (size_list_to_set (C:=gset (list N)))
    by apply NoDup_remove_dups.
  f_equal. apply set_eq. intros x.
  by rewrite !elem_of_list_to_set, elem_of_remove_dups.
Qed.

(** ** The fields the scorer reads *)

Lemma visit_same_content acc a b :
  same_content a b → Detail.visit acc a = Detail.visit acc b.
Proof.
  intros (Hs & Ht & Hn). unfold Detail.visit. by rewrite Hs, Ht, Hn.
Qed.

Lemma foldl_same_content l l' :
  Forall2 same_content l l' →
  ∀ acc, foldl Detail.visit acc l = foldl Detail.visit acc l'.
Proof.
  induction 1 as [|a b l l' Hab _ IH]; intros acc; [done|].
  cbn [foldl]. by rewrite (visit_same_content _ _ _ Hab), IH.
Qed.

(** ** Escaping *)

Lemma replace_g_app c r s t :
  replace_g c r (s ++ t) = replace_g c r s ++ replace_g c r t.
Proof. unfold replace_g. apply bind_app. Qed.

Lemma escapeXml_app s t : escapeXml (s ++ t) = escapeXml s ++ escapeXml t.
Proof. unfold escapeXml. by rewrite !replace_g_app. Qed.

Lemma replace_g_unit c r u :
  replace_g c r [u] = if decide (u = c) then r else [u].
Proof. unfold replace_g. apply bind_singleton. Qed.

Lemma escapeXml_unit u : escapeXml [u] = escape_unit u.
Proof.
  unfold escapeXml, escape_unit.
  rewrite replace_g_unit.
  destruct (decide (u = chr "&")) as [->|?]; [by vm_compute|].
  rewrite replace_g_unit.
  destruct (decide (u = chr "<")) as [->|?]; [by vm_compute|].
  rewrite replace_g_unit.
  destruct (decide (u = chr ">")) as [->|?]; [by vm_compute|].
  rewrite replace_g_unit.
  destruct (decide (u = dquote)) as [->|?]; [by vm_compute|].
  apply replace_g_unit.
Qed.

Lemma escapeXml_bind s : escapeXml s = s ≫= escape_unit.
Proof.
  induction s as [|u s IH]; [done|].
  change (u :: s) with ([u] ++ s).
  by rewrite escapeXml_app, bind_app, IH, escapeXml_unit, bind_singleton.
Qed.

Lemma foldl_export_argument iso l : ∀ xml,
  foldl (export_argument iso) xml l = xml ++ (l ≫= argument_element iso).
Proof.
  induction l as [|a l IH]; intros xml.
  - cbn. by rewrite (right_id_L [] (++)).
  - cbn [foldl]. rewrite IH, bind_cons.
    unfold export_argument, argument_element, xml_text.
    rewrite !escapeXml_bind. by rewrite <- !(assoc_L (++)).
Qed.

Lemma export_xml_document hex iso d l :
  export_xml hex iso d l = document hex iso d l.
Proof.
  unfold export_xml, document, xml_text.
  rewrite foldl_export_argument, !escapeXml_bind.
  by rewrite <- !(assoc_L (++)).
Qed.

(** ** Counting *)

Lemma count_sides l : length (for_side l) + length (against_side l) = length l.
Proof.
  unfold for_side, against_side.
  by rewrite <- length_app, (filter_app_complement is_for l).
Qed.

Lemma listing_Forall (Q : Debate → Stats → Prop) debates coll :
  (∀ d, Q d (Detail.computeStats (of_debate (_id d) coll))) →
  ∃ res,
    Listing.computeStats debates (find_in (_id <$> debates) coll) = Some res ∧
    Forall (λ p, Q p.1 p.2) res.
Proof.
  intros HQ. eexists. split; [apply listing_handler|].
  apply Forall_fmap, Forall_forall. intros d _. apply HQ.
Qed.

Lemma of_debate_all k l : (∀ a, a ∈ l → debate a = k) → of_debate k l = l.
Proof.
  unfold of_debate. induction l as [|a l IH]; intros Hl; [done|].
  rewrite filter_cons_True by (apply Hl; left).
  f_equal. apply IH. intros b Hb. apply Hl. by right.
Qed.

(** ** Sides *)

Lemma against_when_well_formed l :
  Forall (λ a, side a = lit "for" ∨ side a = lit "against") l →
  filter (λ a, side a ≠ lit "for") l
  = filter (λ a, side a = lit "against") l.
Proof.
  induction 1 as [|a l [Ha|Ha] _ IH]; [done| |].
  - rewrite !filter_cons_False; [done| |]; rewrite Ha; [discriminate|tauto].
  - rewrite !filter_cons_True; [by rewrite IH| |]; rewrite Ha; [done|discriminate].
Qed.

(** ** The first example of the specification *)

Example alice_against_bob :
  Detail.computeStats alice_bob = mkStats 1 1 2 1 2 (lit "AGAINST").
Proof. by vm_compute. Qed.

(** * The claims *)

(** C1: for every sequence of arguments the single-debate handler counts
    every argument on exactly one side, [for + against] is the length of the
    sequence; the list handler does the same for every debate it answers
    with, over the arguments of that debate. *)
Theorem counts_cover_input :
  (∀ l : list Argument,
     for_ (Detail.computeStats l) + against (Detail.computeStats l)
     = length l) ∧
  (∀ (debates : list Debate) (coll : list Argument),
     ∃ res,
       Listing.computeStats debates (find_in (_id <$> debates) coll)
       = Some res ∧
       Forall (λ p, for_ p.2 + against p.2
                    = length (of_debate (_id p.1) coll)) res).
Proof.
  assert (H : ∀ l, for_ (Detail.computeStats l)
                   + against (Detail.computeStats l) = length l).
  { intros l. rewrite computeStats_eq. apply count_sides. }
  split; [exact H|]. intros debates coll.
  apply (listing_Forall (λ d st, for_ st + against st
                                 = length (of_debate (_id d) coll))).
  intros d. apply H.
Qed.

(** C2: the winner is FOR when [forPoints > againstPoints], AGAINST when
    [againstPoints > forPoints] and DRAW otherwise, in both handlers; the
    input of two short arguments for and one 150-character argument against
    gives for 2, forPoints 2, against 1, againstPoints 2, DRAW and three
    participants. *)
Theorem winner_by_points :
  (∀ l : list Argument,
     let st := Detail.computeStats l in
     winner st =
       if bool_decide (againstPoints st < forPoints st) then lit "FOR"
       else if bool_decide (forPoints st < againstPoints st)
            then lit "AGAINST"
            else lit "DRAW") ∧
  Detail.computeStats two_against_one = mkStats 2 1 3 2 2 (lit "DRAW") ∧
  (∀ (debates : list Debate) (coll : list Argument),
     ∃ res,
       Listing.computeStats debates (find_in (_id <$> debates) coll)
       = Some res ∧
       Forall (λ p,
         winner p.2 =
           if bool_decide (againstPoints p.2 < forPoints p.2) then lit "FOR"
           else if bool_decide (forPoints p.2 < againstPoints p.2)
                then lit "AGAINST"
                else lit "DRAW") res).
Proof.
  assert (H : ∀ l, let st := Detail.computeStats l in
     winner st = decide_winner (forPoints st) (againstPoints st)).
  { intros l. cbv zeta. by rewrite computeStats_eq. }
  split; [exact H|]. split; [by vm_compute|]. intros debates coll.
  apply (listing_Forall (λ _ st,
    winner st = decide_winner (forPoints st) (againstPoints st))).
  intros d. apply H.
Qed.

(** C3: an argument adds to the points of its own side 1 when its text has
    fewer than 120 code units and 2 when it has 120 or more, and nothing to
    the other side; at length 119 it adds 1, at length 120 it adds 2. *)
Theorem length_bonus_threshold :
  (∀ (l : list Argument) (a : Argument),
     let st := Detail.computeStats l in
     let st' := Detail.computeStats (l ++ [a]) in
     let gain := if bool_decide (length (text a) < 120) then 1 else 2 in
     if decide (side a = lit "for")
     then forPoints st' = forPoints st + gain ∧
          againstPoints st' = againstPoints st
     else againstPoints st' = againstPoints st + gain ∧
          forPoints st' = forPoints st) ∧
  (∀ (statsMap : gmap N (Stats * gset (list N))) (a : Argument)
     (st : Stats) (P : gset (list N)),
     statsMap !! debate a = Some (st, P) →
     ∃ st',
       Listing.visit statsMap a
       = Some (<[ debate a := (st', P ∪ {[ authorName a ]}) ]> statsMap) ∧
       let gain := if bool_decide (length (text a) < 120) then 1 else 2 in
       if decide (side a = lit "for")
       then forPoints st' = forPoints st + gain ∧
            againstPoints st' = againstPoints st
       else againstPoints st' = againstPoints st + gain ∧
            forPoints st' = forPoints st) ∧
  (∀ (l : list Argument) (a : Argument),
     length (text a) = 119 →
     forPoints (Detail.computeStats (l ++ [a]))
     + againstPoints (Detail.computeStats (l ++ [a]))
     = forPoints (Detail.computeStats l)
       + againstPoints (Detail.computeStats l) + 1) ∧
  (∀ (l : list Argument) (a : Argument),
     length (text a) = 120 →
     forPoints (Detail.computeStats (l ++ [a]))
     + againstPoints (Detail.computeStats (l ++ [a]))
     = forPoints (Detail.computeStats l)
       + againstPoints (Detail.computeStats l) + 2).
Proof.
  assert (H : ∀ l a,
    Detail.computeStats (l ++ [a]) =
      Detail.finish (Detail.visit (foldl Detail.visit (Detail.stats0, ∅) l) a)).
  { intros l a. unfold Detail.computeStats. by rewrite foldl_snoc. }
  assert (G : ∀ l a,
     let st := Detail.computeStats l in
     let st' := Detail.computeStats (l ++ [a]) in
     if decide (side a = lit "for")
     then forPoints st' = forPoints st + points a ∧
          againstPoints st' = againstPoints st
     else againstPoints st' = againstPoints st + points a ∧
          forPoints st' = forPoints st).
  { intros l a. cbv zeta. rewrite H. unfold Detail.computeStats.
    destruct (foldl Detail.visit (Detail.stats0, ∅) l) as [s P].
    destruct (decide (side a = lit "for")) as [Ha|Ha].
    - rewrite (visit_for _ _ _ Ha), !finish_eq. done.
    - rewrite (visit_against _ _ _ Ha), !finish_eq. done. }
  split; [exact G|].
  split.
  { intros statsMap a st P Hst. rewrite (listing_visit _ _ _ Hst).
    destruct (decide (side a = lit "for")) as [Ha|Ha].
    - rewrite (visit_for _ _ _ Ha). eexists. split; done.
    - rewrite (visit_against _ _ _ Ha). eexists. split; done. }
  split; intros l a Hlen; specialize (G l a); cbv zeta in G.
  - assert (Hp : points a = 1) by (unfold points; by rewrite Hlen).
    rewrite Hp in G.
    destruct (decide (side a = lit "for")); destruct G as [-> ->]; lia.
  - assert (Hp : points a = 2) by (unfold points; by rewrite Hlen).
    rewrite Hp in G.
    destruct (decide (side a = lit "for")); destruct G as [-> ->]; lia.
Qed.

(** The witness of C3: a text of 119 code units after the three sample
    arguments, and a text of 120 code units; and the first argument of a
    debate in the list handler. *)
Lemma length_bonus_threshold_witness :
  let a119 := sample 4 (lit "for") (replicate 119 (chr "q")) (lit "D") in
  let a120 := sample 4 (lit "against") (replicate 120 (chr "q")) (lit "D") in
  (Listing.init [debate7] !! debate a120 = Some Listing.entry0 ∧
   ∃ st',
     Listing.visit (Listing.init [debate7]) a120
     = Some (<[ 7%N := (st', ∅ ∪ {[ lit "D" ]}) ]> (Listing.init [debate7])) ∧
     againstPoints st' = 2 ∧ forPoints st' = 0) ∧
  (length (text a119) = 119 ∧
   forPoints (Detail.computeStats (two_against_one ++ [a119]))
   + againstPoints (Detail.computeStats (two_against_one ++ [a119]))
   = forPoints (Detail.computeStats two_against_one)
     + againstPoints (Detail.computeStats two_against_one) + 1) ∧
  (length (text a120) = 120 ∧
   forPoints (Detail.computeStats (two_against_one ++ [a120]))
   + againstPoints (Detail.computeStats (two_against_one ++ [a120]))
   = forPoints (Detail.computeStats two_against_one)
     + againstPoints (Detail.computeStats two_against_one) + 2).
Proof.
  intros a119 a120.
  destruct length_bonus_threshold as (_ & Hlist & H119 & H120).
  split; [|split]; (split; [reflexivity|]).
  - destruct (Hlist (Listing.init [debate7]) a120 _ _ eq_refl)
      as (st' & Hrun & Hst').
    cbv zeta in Hst'. rewrite decide_False in Hst' by discriminate.
    exists st'. split; [exact Hrun|exact Hst'].
  - apply (H119 two_against_one a119). reflexivity.
  - apply (H120 two_against_one a120). reflexivity.
Defined.

(** C4: [participants] is the number of distinct [authorName] strings over
    the arguments of both sides, strings being compared code unit by code
    unit (case matters), in both handlers; two arguments count for one
    participant exactly when their author names are equal, whatever their
    sides. *)
Theorem participants_are_distinct_authors :
  (∀ l : list Argument,
     participants (Detail.computeStats l)
     = length (remove_dups (authorName <$> l))) ∧
  (∀ a b : Argument,
     participants (Detail.computeStats [a; b])
     = if decide (authorName a = authorName b) then 1 else 2) ∧
  participants (Detail.computeStats
                  [sample 1 (lit "for") (lit "x") (lit "Alice");
                   sample 2 (lit "against") (lit "y") (lit "Alice")]) = 1 ∧
  participants (Detail.computeStats
                  [sample 1 (lit "for") (lit "x") (lit "Alice");
                   sample 2 (lit "for") (lit "y") (lit "alice")]) = 2 ∧
  (∀ (debates : list Debate) (coll : list Argument),
     ∃ res,
       Listing.computeStats debates (find_in (_id <$> debates) coll)
       = Some res ∧
       Forall (λ p,
         participants p.2
         = length (remove_dups (authorName <$> of_debate (_id p.1) coll)))
         res).
Proof.
  assert (H : ∀ l, participants (Detail.computeStats l)
                   = length (remove_dups (authorName <$> l))).
  { intros l. rewrite computeStats_eq. apply size_authors. }
  split; [exact H|]. split.
  { intros a b. rewrite H. cbn [fmap list_fmap remove_dups].
    destruct (decide_rel (∈) (authorName b) []) as [Hb|_];
      [by apply elem_of_nil in Hb|].
    destruct (decide_rel (∈) (authorName a) [authorName b]) as [Hin|Hout];
      destruct (decide (authorName a = authorName b)) as [Heq|Hne];
      try done.
    - by apply list_elem_of_singleton in Hin.
    - destruct Hout. rewrite Heq. left. }
  split; [by vm_compute|]. split; [by vm_compute|].
  intros debates coll.
  apply (listing_Forall (λ d st,
    participants st
    = length (remove_dups (authorName <$> of_debate (_id d) coll)))).
  intros d. apply H.
Qed.

(** C5: on the empty sequence the single-debate handler answers with the
    counts, the points and the participants all 0 and the winner DRAW; so
    does the list handler for every debate when there is no argument. *)
Theorem empty_input_is_a_draw :
  Detail.computeStats [] = mkStats 0 0 0 0 0 (lit "DRAW") ∧
  (∀ debates : list Debate,
     Listing.computeStats debates []
     = Some ((λ d, (d, mkStats 0 0 0 0 0 (lit "DRAW"))) <$> debates)).
Proof.
  split; [by vm_compute|]. intros debates.
  rewrite listing_computeStats; [done|].
  intros a Ha. by apply elem_of_nil in Ha.
Qed.

(** C6: a permutation of the input gives the same statistics: the same
    [forPoints], [againstPoints], [winner] and [participants] (and the same
    counts). *)
Theorem order_independent (l l' : list Argument) :
  l ≡ₚ l' →
  forPoints (Detail.computeStats l) = forPoints (Detail.computeStats l') ∧
  againstPoints (Detail.computeStats l)
  = againstPoints (Detail.computeStats l') ∧
  winner (Detail.computeStats l) = winner (Detail.computeStats l') ∧
  participants (Detail.computeStats l)
  = participants (Detail.computeStats l') ∧
  Detail.computeStats l = Detail.computeStats l'.
Proof. intros Hp. by rewrite (computeStats_perm _ _ Hp). Qed.

(** The witness of C6: the three sample arguments, last one first. *)
Lemma order_independent_witness :
  let l' := [sample 3 (lit "against") (replicate 150 (chr "z")) (lit "C");
             sample 1 (lit "for") (lit "x") (lit "A");
             sample 2 (lit "for") (lit "y") (lit "B")] in
  two_against_one ≡ₚ l' ∧
  Detail.computeStats two_against_one = Detail.computeStats l'.
Proof.
  intros l'.
  assert (Hp : two_against_one ≡ₚ l').
  { unfold two_against_one, l'.
    eapply perm_trans; [apply perm_skip, perm_swap|apply perm_swap]. }
  split; [exact Hp|]. apply (order_independent _ _ Hp).
Defined.

(** C7: two runs on sequences that carry the same data, argument by
    argument (same side, text and author name), give the same statistics in
    every field; the run reads nothing else, neither the other fields of the
    documents nor anything left by an earlier run. *)
Theorem deterministic (l l' : list Argument) :
  Forall2 same_content l l' →
  Detail.computeStats l = Detail.computeStats l'.
Proof.
  intros H. unfold Detail.computeStats. by rewrite (foldl_same_content _ _ H).
Qed.

(** The witness of C7: the sample arguments stored a second time, under
    other identifiers and at another time. *)
Lemma deterministic_witness :
  let l' := [mkArgument 11 8 (lit "for") (lit "x") (lit "A") (Some 5%N) 99 99;
             mkArgument 12 8 (lit "for") (lit "y") (lit "B") None 98 100;
             mkArgument 13 8 (lit "against") (replicate 150 (chr "z"))
                        (lit "C") None 97 97] in
  Forall2 same_content two_against_one l' ∧
  Detail.computeStats two_against_one = Detail.computeStats l'.
Proof.
  intros l'.
  assert (H : Forall2 same_content two_against_one l').
  { repeat constructor. }
  split; [exact H|]. apply (deterministic _ _ H).
Defined.

(** C8: [escapeXml] replaces every [&], [<], [>], double quote and
    apostrophe of its input by [&amp;], [&lt;], [&gt;], [&quot;] and
    [&apos;] and leaves every other code unit as it is, in its place: the
    five passes amount to one pass over the input, so the [&] of an entity
    produced by one pass is not escaped again by another.  The exported
    document carries the title, the description, the author names and the
    texts escaped in this way. *)
Theorem escapeXml_escapes_five_entities :
  (∀ s : jsstring, escapeXml s = s ≫= escape_unit) ∧
  (escapeXml [chr "&"] = lit "&amp;" ∧
   escapeXml [chr "<"] = lit "&lt;" ∧
   escapeXml [chr ">"] = lit "&gt;" ∧
   escapeXml [dquote] = lit "&quot;" ∧
   escapeXml [chr "'"] = lit "&apos;") ∧
  (∀ u : N,
     escapeXml [u] =
       if decide (u ∈ [chr "&"; chr "<"; chr ">"; dquote; chr "'"])
       then escape_unit u else [u]) ∧
  escapeXml (lit "if a<b && c>'d' then &lt;")
  = lit "if a&lt;b &amp;&amp; c&gt;&apos;d&apos; then &amp;lt;" ∧
  (∀ (hex : N → jsstring) (toISOString : Z → jsstring)
     (d : Debate) (l : list Argument),
     export_xml hex toISOString d l = document hex toISOString d l).
Proof.
  split; [exact escapeXml_bind|].
  split; [by vm_compute|].
  split.
  { intros u. rewrite escapeXml_unit. case_decide as Hu; [done|].
    unfold escape_unit.
    repeat (rewrite decide_False;
            [|intros ->; apply Hu; repeat first [by left|right]]).
    done. }
  split; [by vm_compute|].
  exact export_xml_document.
Qed.

(** C9: the list handler and the single-debate handler compute the same
    statistics.  On the same collection of arguments, the list handler
    answers, for every debate, with the statistics the single-debate handler
    computes for it; and on any sequence of arguments of one debate the two
    loops give the same [for], [against], [forPoints], [againstPoints],
    [participants] and [winner]. *)
Theorem handlers_agree :
  (∀ (debates : list Debate) (coll : list Argument),
     Listing.computeStats debates (find_in (_id <$> debates) coll)
     = Some ((λ d, (d, Detail.computeStats (find_sorted (_id d) coll)))
               <$> debates)) ∧
  (∀ (d : Debate) (l : list Argument),
     (∀ a, a ∈ l → debate a = _id d) →
     Listing.computeStats [d] l = Some [(d, Detail.computeStats l)]).
Proof.
  split.
  - intros debates coll. rewrite listing_handler. f_equal.
    apply Forall_fmap_ext_1, Forall_forall. intros d _. f_equal.
    symmetry. apply computeStats_perm, find_sorted_perm.
  - intros d l Hl. rewrite listing_computeStats.
    + cbn [fmap list_fmap]. by rewrite (of_debate_all _ _ Hl).
    + intros a Ha. rewrite (Hl a Ha). left.
Qed.

(** The witness of C9: the three sample arguments of debate 7. *)
Lemma handlers_agree_witness :
  (∀ a, a ∈ two_against_one → debate a = _id debate7) ∧
  Listing.computeStats [debate7] two_against_one
  = Some [(debate7, Detail.computeStats two_against_one)].
Proof.
  assert (H : ∀ a, a ∈ two_against_one → debate a = _id debate7).
  { intros a Ha. unfold two_against_one in Ha.
    repeat (apply elem_of_cons in Ha as [->|Ha]; [reflexivity|]).
    by apply elem_of_nil in Ha. }
  split; [exact H|]. apply (proj2 handlers_agree debate7 two_against_one H).
Defined.

(** C10: the loop has two branches and no error branch on [side]: an
    argument whose side is not exactly ["for"] is counted against, whatever
    the string is; when every side is ["for"] or ["against"] the arguments
    counted against are those of side ["against"]; the single-debate loop is
    a total function, and the list handler, on the arguments its query
    returns, always answers. *)
Theorem other_sides_count_against :
  (∀ (st : Stats) (P : gset (list N)) (a : Argument),
     side a ≠ lit "for" →
     Detail.visit (st, P) a =
       (mkStats (for_ st) (against st + 1) (participants st) (forPoints st)
                (againstPoints st
                 + (if bool_decide (length (text a) < 120) then 1 else 2))
                (winner st),
        P ∪ {[ authorName a ]})) ∧
  (∀ (statsMap : gmap N (Stats * gset (list N))) (a : Argument)
     (st : Stats) (P : gset (list N)),
     statsMap !! debate a = Some (st, P) →
     side a ≠ lit "for" →
     Listing.visit statsMap a =
       Some (<[ debate a :=
                (mkStats (for_ st) (against st + 1) (participants st)
                   (forPoints st)
                   (againstPoints st
                    + (if bool_decide (length (text a) < 120) then 1 else 2))
                   (winner st),
                 P ∪ {[ authorName a ]}) ]> statsMap)) ∧
  (∀ l : list Argument,
     against (Detail.computeStats l)
     = length (filter (λ a, side a ≠ lit "for") l) ∧
     againstPoints (Detail.computeStats l)
     = sum_list_with
         (λ a, if bool_decide (length (text a) < 120) then 1 else 2)
         (filter (λ a, side a ≠ lit "for") l)) ∧
  (∀ l : list Argument,
     Forall (λ a, side a = lit "for" ∨ side a = lit "against") l →
     against (Detail.computeStats l)
     = length (filter (λ a, side a = lit "against") l) ∧
     for_ (Detail.computeStats l)
     = length (filter (λ a, side a = lit "for") l)) ∧
  Detail.computeStats [sample 1 (lit "For") (lit "x") (lit "A");
                       sample 2 (lit "") (lit "y") (lit "B")]
  = mkStats 0 2 2 0 2 (lit "AGAINST") ∧
  (∀ (debates : list Debate) (coll : list Argument),
     is_Some (Listing.computeStats debates
                (find_in (_id <$> debates) coll))).
Proof.
  split; [intros st P a Ha; by apply visit_against|].
  split.
  { intros statsMap a st P Hst Ha.
    by rewrite (listing_visit _ _ _ Hst), (visit_against _ _ _ Ha). }
  assert (H : ∀ l,
     against (Detail.computeStats l)
     = length (filter (λ a, side a ≠ lit "for") l) ∧
     againstPoints (Detail.computeStats l)
     = sum_list_with points (filter (λ a, side a ≠ lit "for") l)).
  { intros l. by rewrite computeStats_eq. }
  split; [exact H|]. split.
  { intros l Hl. rewrite (proj1 (H l)), computeStats_eq. cbn [for_].
    split; [|done]. by rewrite (against_when_well_formed _ Hl). }
  split; [by vm_compute|].
  intros debates coll. rewrite listing_handler. eauto.
Qed.

(** The witness of C10: a malformed side, counted against; and the sample
    arguments, whose sides are well formed. *)
Lemma other_sides_count_against_witness :
  (side (sample 9 (lit "neutral") (lit "x") (lit "A")) ≠ lit "for" ∧
   Detail.visit (Detail.stats0, ∅)
                (sample 9 (lit "neutral") (lit "x") (lit "A"))
   = (mkStats 0 1 0 0 1 (lit "DRAW"), ∅ ∪ {[ lit "A" ]})) ∧
  (Listing.init [debate7]
     !! debate (sample 9 (lit "neutral") (lit "x") (lit "A"))
   = Some Listing.entry0 ∧
   Listing.visit (Listing.init [debate7])
                 (sample 9 (lit "neutral") (lit "x") (lit "A"))
   = Some (<[ 7%N := (mkStats 0 1 0 0 1 (lit "DRAW"), ∅ ∪ {[ lit "A" ]}) ]>
             (Listing.init [debate7]))) ∧
  (Forall (λ a, side a = lit "for" ∨ side a = lit "against")
          two_against_one ∧
   against (Detail.computeStats two_against_one)
   = length (filter (λ a, side a = lit "against") two_against_one)).
Proof.
  destruct other_sides_count_against as (Hvisit & Hlist & _ & Hwf & _).
  assert (Hs : side (sample 9 (lit "neutral") (lit "x") (lit "A"))
               ≠ lit "for") by discriminate.
  assert (Hl : Forall (λ a, side a = lit "for" ∨ side a = lit "against")
                      two_against_one).
  { unfold two_against_one. repeat constructor; by right. }
  split; [|split]; (split; [first [assumption|reflexivity]|]).
  - apply (Hvisit Detail.stats0 ∅ _ Hs).
  - apply (Hlist (Listing.init [debate7])
                 (sample 9 (lit "neutral") (lit "x") (lit "A"))
                 Detail.stats0 ∅ eq_refl Hs).
  - apply (Hwf two_against_one Hl).
Defined.

(** * Further properties of the code *)

(** ** The statistics of one debate *)

Lemma points_long a : points a = if decide (long a) then 2 else 1.
Proof.
  unfold points, long. case_bool_decide; case_decide; lia.
Qed.

Lemma total_long l : total l = length l + length (filter long l).
Proof.
  induction l as [|a l IH]; [done|].
  rewrite total_cons, IH, filter_cons, points_long.
  case_decide; simpl; lia.
Qed.

Lemma remove_dups_length {A} `{EqDecision A} (l : list A) :
  length (remove_dups l) ≤ length l.
Proof.
  induction l as [|x l IH]; [done|]. simpl.
  destruct (decide_rel (∈) x l); simpl; lia.
Qed.

Lemma remove_dups_nil {A} `{EqDecision A} (l : list A) :
  remove_dups l = [] → l = [].
Proof.
  destruct l as [|x l]; [done|]. intros Hnil.
  assert (Hx : x ∈ remove_dups (x :: l)) by (apply elem_of_remove_dups; left).
  rewrite Hnil in Hx. by apply elem_of_nil in Hx.
Qed.

Lemma for_side_app l k : for_side (l ++ k) = for_side l ++ for_side k.
Proof. apply filter_app. Qed.

Lemma against_side_app l k :
  against_side (l ++ k) = against_side l ++ against_side k.
Proof. apply filter_app. Qed.

Lemma total_app l k : total (l ++ k) = total l + total k.
Proof. apply sum_list_with_app. Qed.

Lemma authors_app l k : authors (l ++ k) = authors l ∪ authors k.
Proof. unfold authors. by rewrite fmap_app, list_to_set_app_L. Qed.

Lemma decide_winner_for f a : a < f → decide_winner f a = lit "FOR".
Proof. intros H. unfold decide_winner. by rewrite bool_decide_eq_true_2. Qed.

Lemma decide_winner_against f a : f < a → decide_winner f a = lit "AGAINST".
Proof.
  intros H. unfold decide_winner.
  rewrite bool_decide_eq_false_2 by lia. by rewrite bool_decide_eq_true_2.
Qed.

Lemma decide_winner_draw f a : f = a → decide_winner f a = lit "DRAW".
Proof.
  intros H. unfold decide_winner.
  by rewrite !bool_decide_eq_false_2 by lia.
Qed.

Lemma decide_winner_cases f a :
  (a < f ∧ decide_winner f a = lit "FOR") ∨
  (f < a ∧ decide_winner f a = lit "AGAINST") ∨
  (f = a ∧ decide_winner f a = lit "DRAW").
Proof.
  destruct (Nat.lt_trichotomy f a) as [H|[H|H]].
  - right; left. auto using decide_winner_against.
  - right; right. auto using decide_winner_draw.
  - left. auto using decide_winner_for.
Qed.

(** X1: the points of a side are its number of arguments plus its number
    of arguments of 120 code units or more; they lie between the count and
    twice the count. *)
Theorem points_are_count_plus_long_arguments (l : list Argument) :
  let st := Detail.computeStats l in
  forPoints st
  = for_ st + length (filter (λ a, side a = lit "for" ∧ long a) l) ∧
  againstPoints st
  = against st + length (filter (λ a, side a ≠ lit "for" ∧ long a) l) ∧
  for_ st ≤ forPoints st ≤ 2 * for_ st ∧
  against st ≤ againstPoints st ≤ 2 * against st.
Proof.
  cbv zeta. rewrite computeStats_eq. cbn [for_ against forPoints againstPoints].
  rewrite !total_long. unfold for_side, against_side, is_for.
  pose proof (length_filter long (filter (λ a, side a = lit "for") l)).
  pose proof (length_filter long (filter (λ a, ¬ side a = lit "for") l)).
  split_and!; try lia.
  - f_equal. rewrite list_filter_filter. f_equal.
    apply list_filter_iff. intros; tauto.
  - f_equal. rewrite list_filter_filter. f_equal.
    apply list_filter_iff. intros; tauto.
Qed.

(** X2: there are never more participants than arguments, and there is no
    participant exactly when there is no argument. *)
Theorem participants_at_most_arguments (l : list Argument) :
  let st := Detail.computeStats l in
  participants st ≤ for_ st + against st ∧
  (participants st = 0 ↔ l = []).
Proof.
  cbv zeta. rewrite computeStats_eq. cbn [for_ against participants].
  rewrite count_sides, size_authors. split.
  - rewrite <- (length_fmap authorName l). apply remove_dups_length.
  - split.
    + intros H%length_zero_iff_nil%remove_dups_nil.
      by apply fmap_nil_inv in H.
    + by intros ->.
Qed.

(** X3: the winner is one of the three strings FOR, AGAINST and DRAW; a
    side that has no argument never wins, and the result is a draw exactly
    when the two sides have the same points. *)
Theorem winner_is_one_of_three (l : list Argument) :
  let st := Detail.computeStats l in
  (winner st = lit "FOR" ∨ winner st = lit "AGAINST"
   ∨ winner st = lit "DRAW") ∧
  (winner st = lit "FOR" → 1 ≤ for_ st) ∧
  (winner st = lit "AGAINST" → 1 ≤ against st) ∧
  (winner st = lit "DRAW" ↔ forPoints st = againstPoints st).
Proof.
  cbv zeta. rewrite computeStats_eq.
  cbn [for_ against forPoints againstPoints winner].
  rewrite !total_long.
  pose proof (length_filter long (for_side l)).
  pose proof (length_filter long (against_side l)).
  destruct (decide_winner_cases
              (length (for_side l) + length (filter long (for_side l)))
              (length (against_side l) + length (filter long (against_side l))))
    as [[Hlt ->]|[[Hlt ->]|[Heq ->]]].
  - split_and!; [auto|intros _; lia|discriminate|split; [discriminate|lia]].
  - split_and!; [auto|discriminate|intros _; lia|split; [discriminate|lia]].
  - split_and!; [auto|discriminate|discriminate|done].
Qed.

(** The witness of X3: the sample with one long argument against two short
    ones is a draw, with equal points. *)
Lemma winner_is_one_of_three_witness :
  winner (Detail.computeStats two_against_one) = lit "DRAW" ∧
  forPoints (Detail.computeStats two_against_one)
  = againstPoints (Detail.computeStats two_against_one).
Proof.
  assert (H : winner (Detail.computeStats two_against_one) = lit "DRAW")
    by reflexivity.
  split; [exact H|].
  apply (proj1 (proj2 (proj2 (proj2
           (winner_is_one_of_three two_against_one)))) H).
Defined.

(** X4: a side with more than twice as many arguments as the other wins,
    whatever the lengths of the texts. *)
Theorem twice_the_arguments_wins (l : list Argument) :
  let st := Detail.computeStats l in
  (2 * against st < for_ st → winner st = lit "FOR") ∧
  (2 * for_ st < against st → winner st = lit "AGAINST").
Proof.
  cbv zeta. rewrite computeStats_eq.
  cbn [for_ against forPoints againstPoints winner].
  rewrite !total_long.
  pose proof (length_filter long (for_side l)).
  pose proof (length_filter long (against_side l)).
  split; intros Hlt.
  - apply decide_winner_for. lia.
  - apply decide_winner_against. lia.
Qed.

(** The witness of X4: three short arguments for and one long argument
    against. *)
Lemma twice_the_arguments_wins_witness :
  let l := [sample 1 (lit "for") (lit "x") (lit "A");
            sample 2 (lit "for") (lit "y") (lit "B");
            sample 3 (lit "for") (lit "z") (lit "A");
            sample 4 (lit "against") (replicate 150 (chr "z")) (lit "C")] in
  2 * against (Detail.computeStats l) < for_ (Detail.computeStats l) ∧
  winner (Detail.computeStats l) = lit "FOR".
Proof.
  intros l.
  assert (H : 2 * against (Detail.computeStats l)
              < for_ (Detail.computeStats l)) by (vm_compute; lia).
  split; [exact H|]. apply (proj1 (twice_the_arguments_wins l) H).
Defined.

(** X5: the statistics of a sequence in two parts: the counts and the
    points of the parts add up, and the participants are at least those of
    each part and at most those of both. *)
Theorem stats_of_two_parts (l k : list Argument) :
  let st := Detail.computeStats (l ++ k) in
  let sl := Detail.computeStats l in
  let sk := Detail.computeStats k in
  for_ st = for_ sl + for_ sk ∧
  against st = against sl + against sk ∧
  forPoints st = forPoints sl + forPoints sk ∧
  againstPoints st = againstPoints sl + againstPoints sk ∧
  participants sl ≤ participants st ∧
  participants sk ≤ participants st ∧
  participants st ≤ participants sl + participants sk.
Proof.
  cbv zeta. rewrite !computeStats_eq.
  cbn [for_ against forPoints againstPoints participants].
  rewrite for_side_app, against_side_app, !total_app, !length_app, authors_app.
  split_and!; try done.
  - apply subseteq_size, union_subseteq_l.
  - apply subseteq_size, union_subseteq_r.
  - rewrite size_union_alt.
    pose proof (subseteq_size (authors k ∖ authors l) (authors k)
                  (subseteq_difference_l _ _ _ (reflexivity _))).
    lia.
Qed.

(** X6: when the two parts of a sequence have the same winner, the whole
    sequence has that winner. *)
Theorem winner_of_agreeing_parts (l k : list Argument) :
  winner (Detail.computeStats l) = winner (Detail.computeStats k) →
  winner (Detail.computeStats (l ++ k)) = winner (Detail.computeStats l).
Proof.
  rewrite !computeStats_eq. cbn [winner].
  rewrite for_side_app, against_side_app, !total_app.
  destruct (decide_winner_cases (total (for_side l)) (total (against_side l)))
    as [[Hl ->]|[[Hl ->]|[Hl ->]]];
  destruct (decide_winner_cases (total (for_side k)) (total (against_side k)))
    as [[Hk ->]|[[Hk ->]|[Hk ->]]]; try discriminate; intros _.
  - apply decide_winner_for. lia.
  - apply decide_winner_against. lia.
  - apply decide_winner_draw. lia.
Qed.

(** The witness of X6: the sample draw, twice. *)
Lemma winner_of_agreeing_parts_witness :
  winner (Detail.computeStats two_against_one)
  = winner (Detail.computeStats two_against_one) ∧
  winner (Detail.computeStats (two_against_one ++ two_against_one))
  = winner (Detail.computeStats two_against_one).
Proof.
  split; [reflexivity|].
  apply (winner_of_agreeing_parts two_against_one two_against_one).
  reflexivity.
Defined.

(** ** The list handler *)

Lemma listing_computeStats_None debates l :
  Listing.computeStats debates l = None ↔
  ∃ a, a ∈ l ∧ debate a ∉ _id <$> debates.
Proof.
  split.
  - intros Hnone.
    destruct (decide (Forall (λ a, debate a ∈ _id <$> debates) l))
      as [Hall|Hex].
    + rewrite listing_computeStats in Hnone; [done|].
      by apply Forall_forall.
    + apply not_Forall_Exists in Hex; [|apply _].
      apply Exists_exists in Hex as (a & Ha & Hout). eauto.
  - intros (a & Ha & Hout). unfold Listing.computeStats.
    rewrite listing_forEach_throws; [done|].
    exists a. split; [done|]. rewrite listing_init. by rewrite decide_False.
Qed.

(** X7: the loop of the list handler throws exactly when one of the
    arguments belongs to a debate that is not in [statsMap], that is, not
    among the debates. *)
Theorem listing_throws_on_unknown_debate
    (debates : list Debate) (l : list Argument) :
  Listing.computeStats debates l = None ↔
  ∃ a, a ∈ l ∧ debate a ∉ _id <$> debates.
Proof. apply listing_computeStats_None. Qed.

(** X8: when the list handler answers, its answer has one entry for every
    debate, in the order of the debates. *)
Theorem listing_one_entry_per_debate
    (debates : list Debate) (l : list Argument) (res : list (Debate * Stats)) :
  Listing.computeStats debates l = Some res → res.*1 = debates.
Proof.
  intros Hres. destruct (decide (Forall (λ a, debate a ∈ _id <$> debates) l))
    as [Hall|Hex].
  - rewrite listing_computeStats in Hres by (by apply Forall_forall).
    injection Hres as <-. rewrite <- list_fmap_compose.
    by rewrite <- (list_fmap_id debates) at 2.
  - apply not_Forall_Exists in Hex; [|apply _].
    apply Exists_exists in Hex as (a & Ha & Hout).
    assert (Listing.computeStats debates l = None) as Hnone
      by (apply listing_computeStats_None; eauto).
    congruence.
Qed.

(** The witness of X8: the sample arguments of debate 7. *)
Lemma listing_one_entry_per_debate_witness :
  Listing.computeStats [debate7] two_against_one
  = Some [(debate7, mkStats 2 1 3 2 2 (lit "DRAW"))] ∧
  [(debate7, mkStats 2 1 3 2 2 (lit "DRAW"))].*1 = [debate7].
Proof.
  assert (H : Listing.computeStats [debate7] two_against_one
              = Some [(debate7, mkStats 2 1 3 2 2 (lit "DRAW"))])
    by (by vm_compute).
  split; [exact H|]. apply (listing_one_entry_per_debate _ _ _ H).
Defined.

Lemma sum_indicator (x : N) (ids : list N) :
  NoDup ids →
  sum_list_with (λ k, if decide (x = k) then 1 else 0) ids
  = if decide (x ∈ ids) then 1 else 0.
Proof.
  induction 1 as [|k ids Hk _ IH]; [done|]. cbn [sum_list_with]. rewrite IH.
  destruct (decide (x = k)) as [->|Hne].
  - rewrite (decide_False (P := k ∈ ids)) by done.
    by rewrite decide_True by left.
  - destruct (decide (x ∈ ids)) as [Hin|Hout].
    + by rewrite decide_True by (by right).
    + rewrite decide_False; [done|].
      by intros [->|?]%elem_of_cons.
Qed.

Lemma length_find_in ids coll :
  NoDup ids →
  length (find_in ids coll)
  = sum_list_with (λ k, length (of_debate k coll)) ids.
Proof.
  intros Hnd. unfold find_in, of_debate.
  induction coll as [|a coll IH].
  - simpl. induction ids as [|k ids IHids]; [done|].
    cbn [sum_list_with]. rewrite <- IHids; [done|]. by apply NoDup_cons in Hnd as [_ ?].
  - rewrite filter_cons.
    assert (Hsum : sum_list_with
              (λ k, length (filter (λ a0, debate a0 = k) (a :: coll))) ids
            = sum_list_with (λ k, if decide (debate a = k) then 1 else 0) ids
              + sum_list_with
                  (λ k, length (filter (λ a0, debate a0 = k) coll)) ids).
    { clear. induction ids as [|k ids IHids]; [done|].
      cbn [sum_list_with]. rewrite IHids, filter_cons.
      destruct (decide (debate a = k)); simpl; lia. }
    rewrite Hsum, sum_indicator by done.
    destruct (decide (debate a ∈ ids)); simpl; lia.
Qed.

(** X9: when the debates have distinct identifiers, every argument the
    query returns is counted in exactly one debate: over the whole answer of
    the list handler, the counts add up to the number of arguments. *)
Theorem listing_counts_each_argument_once
    (debates : list Debate) (coll : list Argument) :
  NoDup (_id <$> debates) →
  ∃ res,
    Listing.computeStats debates (find_in (_id <$> debates) coll)
    = Some res ∧
    sum_list_with (λ p, for_ p.2 + against p.2) res
    = length (find_in (_id <$> debates) coll).
Proof.
  intros Hnd. eexists. split; [apply listing_handler|].
  rewrite (length_find_in _ _ Hnd).
  clear Hnd. induction debates as [|d debates IH]; [done|].
  cbn [fmap list_fmap sum_list_with]. cbn [fmap] in IH. rewrite IH.
  cbn [snd]. rewrite computeStats_eq. cbn [for_ against].
  by rewrite count_sides.
Qed.

(** The witness of X9: two debates and the sample arguments of debate 7. *)
Lemma listing_counts_each_argument_once_witness :
  let debates := [debate7; mkDebate 8 (lit "Vim") None 1] in
  NoDup (_id <$> debates) ∧
  ∃ res,
    Listing.computeStats debates (find_in (_id <$> debates) two_against_one)
    = Some res ∧
    sum_list_with (λ p, for_ p.2 + against p.2) res
    = length (find_in (_id <$> debates) two_against_one).
Proof.
  intros debates.
  assert (H : NoDup (_id <$> debates)).
  { apply NoDup_cons. split; [|apply NoDup_singleton].
    by intros ?%list_elem_of_singleton. }
  split; [exact H|].
  apply (listing_counts_each_argument_once debates two_against_one H).
Defined.

(** ** Escaping *)

Lemma escape_unit_other u : ¬ special u → escape_unit u = [u].
Proof.
  unfold special, escape_unit. intros Hu.
  repeat (rewrite decide_False;
          [|intros ->; apply Hu; repeat first [by left|right]]).
  done.
Qed.

Lemma escape_unit_special u :
  special u →
  u = chr "&" ∧ escape_unit u = lit "&amp;" ∨
  u = chr "<" ∧ escape_unit u = lit "&lt;" ∨
  u = chr ">" ∧ escape_unit u = lit "&gt;" ∨
  u = dquote ∧ escape_unit u = lit "&quot;" ∨
  u = chr "'" ∧ escape_unit u = lit "&apos;".
Proof.
  unfold special. rewrite !elem_of_cons, elem_of_nil.
  intros [->|[->|[->|[->|[->|[]]]]]]; auto 10.
Qed.

Lemma unescape_other u r : u ≠ chr "&" → unescape (u :: r) = u :: unescape r.
Proof.
  intros Hu. destruct u as [|p]; [done|].
  do 6 (try (destruct p as [p|p|]; try reflexivity)).
  by destruct Hu.
Qed.

Lemma unescape_escape_unit u r :
  unescape (escape_unit u ++ r) = u :: unescape r.
Proof.
  destruct (decide (special u)) as [Hu|Hu].
  - by destruct (escape_unit_special u Hu)
      as [[-> ->]|[[-> ->]|[[-> ->]|[[-> ->]|[-> ->]]]]].
  - rewrite (escape_unit_other u Hu). apply unescape_other.
    intros ->. apply Hu. left.
Qed.

Lemma unescape_escapeXml s : unescape (escapeXml s) = s.
Proof.
  rewrite escapeXml_bind. induction s as [|u s IH]; [done|].
  by rewrite bind_cons, unescape_escape_unit, IH.
Qed.

(** X10: the escaped text contains no [<], no [>], no double quote and no
    apostrophe: it cannot end the element or the attribute it is written
    in. *)
Theorem escapeXml_leaves_no_markup (s : jsstring) :
  Forall (λ u, u ≠ chr "<" ∧ u ≠ chr ">" ∧ u ≠ dquote ∧ u ≠ chr "'")
         (escapeXml s).
Proof.
  rewrite escapeXml_bind. induction s as [|u s IH]; [constructor|].
  rewrite bind_cons. apply Forall_app. split; [|exact IH].
  destruct (decide (special u)) as [Hu|Hu].
  - destruct (escape_unit_special u Hu)
      as [[-> ->]|[[-> ->]|[[-> ->]|[[-> ->]|[-> ->]]]]];
      repeat constructor; discriminate.
  - rewrite (escape_unit_other u Hu). constructor; [|constructor].
    unfold special in Hu. rewrite !elem_of_cons in Hu.
    split_and!; intros ->; apply Hu; auto 10.
Qed.

(** X11: the escaping loses nothing: reading the five entities back gives
    the text that was escaped, so two texts with the same escaping are the
    same text. *)
Theorem escapeXml_round_trip :
  (∀ s : jsstring, unescape (escapeXml s) = s) ∧
  (∀ s t : jsstring, escapeXml s = escapeXml t → s = t).
Proof.
  split; [exact unescape_escapeXml|]. intros s t H.
  by rewrite <- (unescape_escapeXml s), H, unescape_escapeXml.
Qed.

(** The witness of X11: a text with the five special characters. *)
Lemma escapeXml_round_trip_witness :
  let s := lit "a<b & 'c'>d &amp; e" ++ [dquote] in
  escapeXml s = escapeXml s ∧ unescape (escapeXml s) = s ∧ s = s.
Proof.
  intros s. split; [reflexivity|]. split.
  - apply (proj1 escapeXml_round_trip s).
  - apply (proj2 escapeXml_round_trip s s). reflexivity.
Defined.

Lemma length_escape_bind s :
  length s + 3 * length (filter special s) ≤ length (s ≫= escape_unit)
  ∧ length (s ≫= escape_unit) ≤ length s + 5 * length (filter special s).
Proof.
  induction s as [|u s IH]; [simpl; lia|].
  rewrite bind_cons, length_app, filter_cons.
  destruct (decide (special u)) as [Hu|Hu].
  - destruct (escape_unit_special u Hu)
      as [[-> ->]|[[-> ->]|[[-> ->]|[[-> ->]|[-> ->]]]]];
      simpl in *; lia.
  - rewrite (escape_unit_other u Hu). simpl. lia.
Qed.

(** X12: the escaped text is never shorter than the text and at most six
    times as long, and it is the text itself exactly when the text has none
    of the five special characters. *)
Theorem escapeXml_length_and_fixed_points (s : jsstring) :
  length s ≤ length (escapeXml s) ≤ 6 * length s ∧
  (escapeXml s = s ↔ Forall (λ u, ¬ special u) s).
Proof.
  rewrite escapeXml_bind.
  pose proof (length_escape_bind s) as [Hlo Hhi].
  pose proof (length_filter special s) as Hf.
  split; [lia|]. split.
  - intros Heq. rewrite Heq in Hlo.
    assert (Hnil : filter special s = [])
      by (apply length_zero_iff_nil; lia).
    apply Forall_forall. intros u Hu Hsp.
    assert (Hin : u ∈ filter special s) by (by apply list_elem_of_filter).
    rewrite Hnil in Hin. by apply elem_of_nil in Hin.
  - clear. induction 1 as [|u s' Hu _ IH]; [done|].
    rewrite bind_cons, (escape_unit_other u Hu), IH. done.
Qed.

(** X13: escaping goes through concatenation: the escaping of two texts
    put together is the two escapings put together, so a text can be escaped
    piece by piece. *)
Theorem escapeXml_of_concatenation (s t : jsstring) :
  escapeXml (s ++ t) = escapeXml s ++ escapeXml t.
Proof. by rewrite !escapeXml_bind, bind_app. Qed.

(** ** The token of a request *)

(** Closed decidable facts, by evaluation. *)
Ltac by_evaluation := apply (bool_decide_unpack _); vm_compute; exact I.

Lemma startsWith_app p r : startsWith (p ++ r) p = true.
Proof.
  induction p as [|c p IH]; [done|]. simpl.
  by rewrite bool_decide_eq_true_2, IH.
Qed.

Lemma startsWith_true s p : startsWith s p = true → ∃ r, s = p ++ r.
Proof.
  revert s. induction p as [|c p IH]; intros s H; [by exists s|].
  destruct s as [|d s]; [done|]. simpl in H.
  apply andb_true_iff in H as [Hd Hs]. apply bool_decide_eq_true_1 in Hd.
  destruct (IH s Hs) as [r ->]. exists r. by rewrite Hd.
Qed.

Lemma split_piece sep t r :
  sep ∉ t → split sep (t ++ sep :: r) = t :: split sep r.
Proof.
  induction t as [|u t IH]; intros Ht.
  - simpl. by rewrite decide_True.
  - apply not_elem_of_cons in Ht as [Hu Ht]. simpl.
    rewrite decide_False by done. by rewrite IH.
Qed.

Lemma split_last sep t : sep ∉ t → split sep t = [t].
Proof.
  induction t as [|u t IH]; intros Ht; [done|].
  apply not_elem_of_cons in Ht as [Hu Ht]. simpl.
  rewrite decide_False by done. by rewrite IH.
Qed.

Lemma split_bearer h :
  split 32 (lit "Bearer " ++ h) = lit "Bearer" :: split 32 h.
Proof.
  change (lit "Bearer " ++ h) with (lit "Bearer" ++ 32%N :: h).
  apply split_piece. by_evaluation.
Qed.

Lemma authMiddleware_bearer verify h :
  authMiddleware verify (Some (lit "Bearer " ++ h)) =
    match head (split 32 h) ≫= verify with
    | Some payload => Next payload
    | None => Refused 401 (lit "Invalid token")
    end.
Proof.
  unfold authMiddleware. rewrite startsWith_app. cbn [negb].
  rewrite split_bearer. by destruct (split 32 h).
Qed.

(** X14: without an [Authorization] header, or with one that does not
    begin with the seven characters [Bearer ] (capital B, one space), the
    middleware answers 401 "No token" and the verification of a token plays
    no part. *)
Theorem authMiddleware_no_token
    (verify : jsstring → option Payload) :
  authMiddleware verify None = Refused 401 (lit "No token") ∧
  (∀ h : jsstring,
     (∀ r, h ≠ lit "Bearer " ++ r) →
     authMiddleware verify (Some h) = Refused 401 (lit "No token")).
Proof.
  split; [done|]. intros h Hh. unfold authMiddleware.
  destruct (startsWith h (lit "Bearer ")) eqn:Hs; [|done].
  apply startsWith_true in Hs as [r ->]. by destruct (Hh r).
Qed.

(** The witness of X14: the scheme in lower case, with a verification that
    would accept any token. *)
Lemma authMiddleware_no_token_witness :
  (∀ r, lit "bearer abc" ≠ lit "Bearer " ++ r) ∧
  authMiddleware (λ _, Some (mkPayload 1 (lit "ann")))
                 (Some (lit "bearer abc"))
  = Refused 401 (lit "No token").
Proof.
  assert (H : ∀ r, lit "bearer abc" ≠ lit "Bearer " ++ r)
    by (intros r; discriminate).
  split; [exact H|].
  apply (proj2 (authMiddleware_no_token _) _ H).
Defined.

(** X15: for a header [Bearer ] followed by a token without space, the
    verification of that token decides: its payload becomes [req.user], or
    the answer is 401 "Invalid token".  Whatever follows a second space is
    not looked at. *)
Theorem authMiddleware_verifies_the_token
    (verify : jsstring → option Payload) (t : jsstring) :
  32%N ∉ t →
  let outcome :=
    match verify t with
    | Some payload => Next payload
    | None => Refused 401 (lit "Invalid token")
    end in
  authMiddleware verify (Some (lit "Bearer " ++ t)) = outcome ∧
  (∀ rest : jsstring,
     authMiddleware verify (Some (lit "Bearer " ++ t ++ 32%N :: rest))
     = outcome).
Proof.
  intros Ht. cbv zeta. split.
  - by rewrite authMiddleware_bearer, (split_last _ _ Ht).
  - intros rest. by rewrite authMiddleware_bearer, (split_piece _ _ _ Ht).
Qed.

(** The witness of X15: a verification that knows one token. *)
Lemma authMiddleware_verifies_the_token_witness :
  let verify := (λ t, if decide (t = lit "abc.def")
                      then Some (mkPayload 1 (lit "ann")) else None) in
  (32%N ∉ lit "abc.def") ∧
  authMiddleware verify (Some (lit "Bearer abc.def"))
  = Next (mkPayload 1 (lit "ann")) ∧
  authMiddleware verify (Some (lit "Bearer abc.def and more"))
  = Next (mkPayload 1 (lit "ann")).
Proof.
  intros verify.
  assert (H : 32%N ∉ lit "abc.def") by by_evaluation.
  split; [exact H|].
  destruct (authMiddleware_verifies_the_token verify (lit "abc.def") H)
    as [H1 H2].
  split; [exact H1|]. exact (H2 (lit "and more")).
Defined.

(** X16: the client and the server agree on the token.  After
    [setToken(t)] with a token that is not empty and has no space, the page
    is not sent to the login, and the header [authHeaders()] builds makes the
    middleware verify exactly [t].  With no token stored, or the empty
    string, [authHeaders()] is empty, the page is sent to [/index.html] and
    the middleware answers 401 "No token". *)
Theorem client_token_reaches_the_server
    (verify : jsstring → option Payload)
    (localStorage : gmap (list N) (list N)) (href : jsstring) :
  (∀ t : jsstring,
     t ≠ [] → 32%N ∉ t →
     requireAuth (setToken t localStorage) href = href ∧
     authMiddleware verify
       (sent_authorization (authHeaders (setToken t localStorage)))
     = match verify t with
       | Some payload => Next payload
       | None => Refused 401 (lit "Invalid token")
       end) ∧
  (getToken localStorage = None ∨ getToken localStorage = Some [] →
   authHeaders localStorage = ∅ ∧
   requireAuth localStorage href = lit "/index.html" ∧
   authMiddleware verify (sent_authorization (authHeaders localStorage))
   = Refused 401 (lit "No token")).
Proof.
  split.
  - intros t Hne Ht. unfold requireAuth, authHeaders, getToken, setToken.
    rewrite lookup_insert_eq. destruct t as [|u t]; [done|].
    split; [done|]. unfold sent_authorization. rewrite lookup_insert_eq.
    by rewrite authMiddleware_bearer, (split_last _ _ Ht).
  - unfold requireAuth, authHeaders, sent_authorization.
    intros [-> | ->]; by rewrite lookup_empty.
Qed.

(** The witness of X16: a token stored over an older one, and an empty
    storage. *)
Lemma client_token_reaches_the_server_witness :
  let verify := (λ t, if decide (t = lit "abc.def")
                      then Some (mkPayload 1 (lit "ann")) else None) in
  let storage : gmap (list N) (list N) := {[ lit "token" := lit "old" ]} in
  (lit "abc.def" ≠ [] ∧ (32%N ∉ lit "abc.def") ∧
   authMiddleware verify
     (sent_authorization (authHeaders (setToken (lit "abc.def") storage)))
   = Next (mkPayload 1 (lit "ann"))) ∧
  ((getToken (∅ : gmap (list N) (list N)) = None
    ∨ getToken (∅ : gmap (list N) (list N)) = Some []) ∧
   authMiddleware verify (sent_authorization (authHeaders ∅))
   = Refused 401 (lit "No token")).
Proof.
  intros verify storage.
  assert (H1 : lit "abc.def" ≠ []) by discriminate.
  assert (H2 : 32%N ∉ lit "abc.def") by by_evaluation.
  assert (H3 : getToken (∅ : gmap (list N) (list N)) = None
               ∨ getToken (∅ : gmap (list N) (list N)) = Some [])
    by (left; reflexivity).
  split.
  - split; [exact H1|]. split; [exact H2|].
    apply (proj1 (client_token_reaches_the_server verify storage [])
             (lit "abc.def") H1 H2).
  - split; [exact H3|].
    apply (proj2 (client_token_reaches_the_server verify ∅ []) H3).
Defined.

(** ** Accounts *)

Lemma User_findOne_None name users :
  User_findOne name users = None ↔ name ∉ User.username <$> users.
Proof.
  unfold User_findOne. induction users as [|u users IH]; simpl.
  - split; [intros _; apply not_elem_of_nil|done].
  - case_bool_decide as Hu.
    + split; [done|]. intros Hout. destruct Hout. rewrite Hu. left.
    + rewrite IH, not_elem_of_cons. split; [|tauto].
      intros Hout. split; [congruence|done].
Qed.

Lemma User_findOne_Some name users u :
  User_findOne name users = Some u → u ∈ users ∧ User.username u = name.
Proof.
  unfold User_findOne. induction users as [|v users IH]; simpl; [done|].
  case_bool_decide as Hv.
  - intros [= <-]. split; [left|done].
  - intros H. destruct (IH H) as [Hin Hn]. split; [by right|done].
Qed.

Lemma User_findOne_new name users v :
  name ∉ User.username <$> users → User.username v = name →
  User_findOne name (users ++ [v]) = Some v.
Proof.
  unfold User_findOne. intros Hout Hv.
  induction users as [|u users IH]; simpl.
  - by rewrite bool_decide_eq_true_2.
  - rewrite fmap_cons in Hout. apply not_elem_of_cons in Hout as [Hu Hout].
    rewrite bool_decide_eq_false_2 by done. by apply IH.
Qed.

Lemma falsy_false v : falsy v = false → ∃ u s, v = Some (u :: s).
Proof. destruct v as [[|u s]|]; try done. eauto. Qed.

(** X17: the register handler refuses a body without a user name or
    without a password (absent or empty) with 400 "Username & password
    required", and a name that a user already has with 400 "Username already
    taken"; in both cases no user is stored. *)
Theorem register_refuses
    (hash : jsstring → N → jsstring) (valid : jsstring → jsstring → bool)
    (fresh : ObjectId) (salt : N) (users : list User.t) :
  (∀ username password : option jsstring,
     falsy username = true ∨ falsy password = true →
     register hash valid username password fresh salt users
     = (Message 400 (lit "Username & password required"), users)) ∧
  (∀ username password : jsstring,
     username ≠ [] → password ≠ [] →
     username ∈ User.username <$> users →
     register hash valid (Some username) (Some password) fresh salt users
     = (Message 400 (lit "Username already taken"), users)).
Proof.
  split.
  - intros username password Hf. unfold register.
    destruct Hf as [-> | ->]; [done|]. by rewrite orb_true_r.
  - intros username password Hn Hp Hin. unfold register.
    destruct username as [|u n]; [done|]. destruct password as [|c p]; [done|].
    cbn [falsy orb default from_option id].
    destruct (User_findOne (u :: n) users) as [existing|] eqn:Hfind; [done|].
    by apply User_findOne_None in Hfind.
Qed.

(** The witness of X17: an empty password, and a name that is taken. *)
Lemma register_refuses_witness :
  let hash := (λ (p : jsstring) (salt : N), salt :: p) in
  let valid := (λ _ _ : jsstring, true) in
  let users := [User.mk 1 (lit "ann") (lit "h")] in
  ((falsy (Some (lit "bob")) = true ∨ falsy (Some []) = true) ∧
   register hash valid (Some (lit "bob")) (Some []) 2 0 users
   = (Message 400 (lit "Username & password required"), users)) ∧
  (lit "ann" ≠ [] ∧ lit "pw" ≠ [] ∧ lit "ann" ∈ User.username <$> users ∧
   register hash valid (Some (lit "ann")) (Some (lit "pw")) 2 0 users
   = (Message 400 (lit "Username already taken"), users)).
Proof.
  intros hash valid users.
  assert (H1 : falsy (Some (lit "bob")) = true ∨ falsy (Some []) = true)
    by (right; reflexivity).
  assert (H2 : lit "ann" ≠ []) by discriminate.
  assert (H3 : lit "pw" ≠ []) by discriminate.
  assert (H4 : lit "ann" ∈ User.username <$> users) by left.
  destruct (register_refuses hash valid 2 0 users) as [Ha Hb].
  split.
  - split; [exact H1|]. exact (Ha _ _ H1).
  - split; [exact H2|]. split; [exact H3|]. split; [exact H4|].
    exact (Hb _ _ H2 H3 H4).
Defined.

(** X18: the register handler keeps the user names distinct and not
    empty: when that holds of the users before a call it holds after it. *)
Theorem register_keeps_names_distinct
    (hash : jsstring → N → jsstring) (valid : jsstring → jsstring → bool)
    (username password : option jsstring)
    (fresh : ObjectId) (salt : N) (users : list User.t) :
  NoDup (User.username <$> users) ∧ [] ∉ User.username <$> users →
  let users' :=
    (register hash valid username password fresh salt users).2 in
  NoDup (User.username <$> users') ∧ [] ∉ User.username <$> users'.
Proof.
  intros [Hnd Hne]. cbv zeta. unfold register.
  destruct (falsy username || falsy password) eqn:Hf; [done|].
  apply orb_false_iff in Hf as [Hu Hp].
  apply falsy_false in Hu as (u & n & ->). cbn [default from_option id].
  destruct (User_findOne (u :: n) users) as [existing|] eqn:Hfind; [done|].
  apply User_findOne_None in Hfind.
  destruct (valid _ _); [|done]. cbn [snd].
  rewrite fmap_app. cbn [fmap list_fmap User.username]. split.
  - apply NoDup_app. split_and!; [done| |apply NoDup_singleton].
    intros x Hx ->%list_elem_of_singleton. done.
  - intros [H|H]%elem_of_app; [done|].
    by apply list_elem_of_singleton in H.
Qed.

(** The witness of X18: a second user. *)
Lemma register_keeps_names_distinct_witness :
  let hash := (λ (p : jsstring) (salt : N), salt :: p) in
  let valid := (λ _ _ : jsstring, true) in
  let users := [User.mk 1 (lit "ann") (lit "h")] in
  let users' :=
    (register hash valid (Some (lit "bob")) (Some (lit "pw")) 2 0 users).2 in
  (NoDup (User.username <$> users) ∧ [] ∉ User.username <$> users) ∧
  NoDup (User.username <$> users') ∧ [] ∉ User.username <$> users'.
Proof.
  intros hash valid users users'.
  assert (H : NoDup (User.username <$> users)
              ∧ [] ∉ User.username <$> users).
  { split; [apply NoDup_singleton|]. by intros ?%list_elem_of_singleton. }
  split; [exact H|].
  apply (register_keeps_names_distinct hash valid
           (Some (lit "bob")) (Some (lit "pw")) 2 0 users H).
Defined.

(** X19: a user who has just been registered can log in.  When the
    register handler answers 201 and [bcrypt.compare] accepts the password
    against the hash that was stored, the login with the same name and
    password answers 200 with the token signed for the new user's
    identifier and name. *)
Theorem register_then_login
    (hash : jsstring → N → jsstring) (compare : jsstring → jsstring → bool)
    (valid : jsstring → jsstring → bool) (sign : Payload → jsstring)
    (username password : jsstring) (fresh : ObjectId) (salt : N)
    (users users' : list User.t) (body : jsstring * ObjectId) :
  register hash valid (Some username) (Some password) fresh salt users
  = (Json 201 body, users') →
  compare password (hash password salt) = true →
  body = (lit "User registered", fresh) ∧
  login compare sign username password users'
  = Json 200 (sign (mkPayload fresh username)).
Proof.
  unfold register. intros Hreg Hcmp.
  destruct (falsy (Some username) || falsy (Some password)); [done|].
  cbn [default from_option id] in Hreg.
  destruct (User_findOne username users) as [existing|] eqn:Hfind; [done|].
  apply User_findOne_None in Hfind.
  destruct (valid _ _); [|done]. injection Hreg as <- <-.
  split; [done|]. unfold login.
  rewrite (User_findOne_new username users
             (User.mk fresh username (hash password salt)) Hfind eq_refl).
  cbn [User.passwordHash User._id User.username]. by rewrite Hcmp.
Qed.

(** The witness of X19: a hash that keeps the password after the salt and
    a comparison that reads it there. *)
Lemma register_then_login_witness :
  let hash := (λ (p : jsstring) (salt : N), salt :: p) in
  let compare := (λ (p h : jsstring), bool_decide (tail h = p)) in
  let valid := (λ _ _ : jsstring, true) in
  let sign := (λ p : Payload, userId p :: username p) in
  let users := [User.mk 1 (lit "ann") (lit "h")] in
  let bob := User.mk 2 (lit "bob") (5%N :: lit "pw") in
  register hash valid (Some (lit "bob")) (Some (lit "pw")) 2 5 users
  = (Json 201 (lit "User registered", 2%N), users ++ [bob]) ∧
  compare (lit "pw") (hash (lit "pw") 5%N) = true ∧
  login compare sign (lit "bob") (lit "pw") (users ++ [bob])
  = Json 200 (sign (mkPayload 2 (lit "bob"))).
Proof.
  intros hash compare valid sign users bob.
  assert (H1 : register hash valid (Some (lit "bob")) (Some (lit "pw"))
                 2 5 users
               = (Json 201 (lit "User registered", 2%N), users ++ [bob]))
    by reflexivity.
  assert (H2 : compare (lit "pw") (hash (lit "pw") 5%N) = true)
    by reflexivity.
  split; [exact H1|]. split; [exact H2|].
  apply (register_then_login hash compare valid sign _ _ _ _ _ _ _ H1 H2).
Defined.

(** X20: the login issues a token only for a user that exists and whose
    stored hash [bcrypt.compare] accepts, and the token is signed for that
    user's identifier and name; in every other case, unknown name or wrong
    password alike, it answers 400 "Invalid credentials". *)
Theorem login_answers
    (compare : jsstring → jsstring → bool) (sign : Payload → jsstring)
    (username password : jsstring) (users : list User.t) :
  (∃ u, User_findOne username users = Some u ∧
        compare password (User.passwordHash u) = true ∧
        u ∈ users ∧ User.username u = username ∧
        login compare sign username password users
        = Json 200 (sign (mkPayload (User._id u) username))) ∨
  ((username ∉ User.username <$> users ∨
    ∃ u, User_findOne username users = Some u ∧
         compare password (User.passwordHash u) = false) ∧
   login compare sign username password users
   = Message 400 (lit "Invalid credentials")).
Proof.
  unfold login.
  destruct (User_findOne username users) as [u|] eqn:Hfind.
  - destruct (User_findOne_Some _ _ _ Hfind) as [Hin Hn].
    destruct (compare password (User.passwordHash u)) eqn:Hcmp.
    + left. exists u. rewrite Hn. by rewrite Hcmp.
    + right. split; [|done]. right. exists u. by rewrite Hcmp.
  - right. split; [|done]. left. by apply User_findOne_None.
Qed.

(** ** Adding an argument *)

Lemma Debate_findById_None id debates :
  Debate_findById id debates = None ↔ id ∉ _id <$> debates.
Proof.
  unfold Debate_findById. induction debates as [|d debates IH]; simpl.
  - split; [intros _; apply not_elem_of_nil|done].
  - case_bool_decide as Hd.
    + split; [done|]. intros Hout. destruct Hout. rewrite Hd. left.
    + rewrite IH, not_elem_of_cons. split; [|tauto].
      intros Hout. split; [congruence|done].
Qed.

Lemma Debate_findById_Some id debates d :
  Debate_findById id debates = Some d → d ∈ debates ∧ _id d = id.
Proof.
  unfold Debate_findById. induction debates as [|e debates IH]; simpl; [done|].
  case_bool_decide as He.
  - intros [= <-]. split; [left|done].
  - intros H. destruct (IH H) as [Hin Hn]. split; [by right|done].
Qed.

Lemma or_else_some a b : or_else a b = [] → b = [].
Proof. by destruct a as [[|u a]|]. Qed.

(** The three ways the handler ends. *)
Lemma addArgument_cases user id side text authorName fresh now debates coll :
  let r := addArgument user id side text authorName fresh now debates coll in
  ((side ∉ [Some (lit "for"); Some (lit "against")]) ∧
   r = (Message 400 (lit "Side must be for/against"), coll)) ∨
  (side ∈ [Some (lit "for"); Some (lit "against")] ∧
   (id ∉ _id <$> debates) ∧
   r = (Message 404 (lit "Debate not found"), coll)) ∨
  (side ∈ [Some (lit "for"); Some (lit "against")] ∧ id ∈ _id <$> debates ∧
   (falsy text = true ∨ or_else authorName (username user) = []) ∧
   r = (Message 500 (lit "Server error"), coll)) ∨
  (∃ s t,
     side = Some s ∧ text = Some t ∧
     (s = lit "for" ∨ s = lit "against") ∧ t ≠ [] ∧
     or_else authorName (username user) ≠ [] ∧ id ∈ _id <$> debates ∧
     let a := mkArgument fresh id s t (or_else authorName (username user))
                         (Some (userId user)) now now in
     r = (Json 201 a, coll ++ [a])).
Proof.
  cbv zeta. unfold addArgument.
  case_bool_decide as Hside; cbn [negb]; [|by left].
  right. destruct (Debate_findById id debates) as [d|] eqn:Hd.
  2:{ left. by apply Debate_findById_None in Hd. }
  right.
  assert (Hid : id ∈ _id <$> debates).
  { destruct (Debate_findById_Some _ _ _ Hd) as [Hin <-].
    by apply list_elem_of_fmap_2. }
  unfold Argument_create.
  pose proof Hside as Hin.
  rewrite !elem_of_cons, elem_of_nil in Hin.
  destruct side as [s|]; [|by destruct Hin as [?|[?|[]]]].
  assert (Hs : s = lit "for" ∨ s = lit "against").
  { destruct Hin as [[= ->]|[[= ->]|[]]]; auto. }
  clear Hin.
  destruct text as [t|]; [|left; auto].
  case_bool_decide as Hok.
  - right. destruct Hok as (_ & _ & Ht & Hn). exists s, t. auto 10.
  - left. split; [done|]. split; [done|]. split; [|done].
    destruct t as [|u t]; [by left|]. right.
    destruct (decide (or_else authorName (username user) = [])) as [|Hn];
      [done|].
    destruct Hok. split_and!; try done.
    + rewrite !elem_of_cons. tauto.
    + destruct Hs as [-> | ->]; discriminate.
Qed.



(** X22: the handler answers 201 exactly when the side is ["for"] or
    ["against"], the debate exists, the text is present and not empty and
    the author name, or failing it the user name of the token, is not empty.
    The document it stores, at the end of the collection, carries the side
    and the text as they were sent, the debate of the path, the user of the
    token, and as author the name sent or, when that is absent or empty,
    the user name of the token. *)
Theorem addArgument_stores_what_was_sent
    (user : Payload) (id : ObjectId) (sent_side sent_text sent_author : option jsstring)
    (fresh : ObjectId) (now : Z)
    (debates : list Debate) (coll coll' : list Argument) (a : Argument) :
  addArgument user id sent_side sent_text sent_author fresh now debates coll
  = (Json 201 a, coll') ↔
  (sent_side = Some (side a) ∧ sent_text = Some (text a) ∧
   (side a = lit "for" ∨ side a = lit "against") ∧
   text a ≠ [] ∧
   or_else sent_author (username user) ≠ [] ∧
   id ∈ _id <$> debates ∧
   a = mkArgument fresh id (side a) (text a)
         (or_else sent_author (username user)) (Some (userId user)) now now ∧
   coll' = coll ++ [a]).
Proof.
  destruct (addArgument_cases user id sent_side sent_text sent_author
              fresh now debates coll)
    as [[Hs Hr]|[(Hs & Hd & Hr)|[(Hs & Hd & Hbad & Hr)|
        (s & t & -> & -> & Hs & Ht & Hn & Hd & Hr)]]];
    cbv zeta in Hr; rewrite Hr; clear Hr.
  - split; [done|]. intros (-> & _ & Hside & _). destruct Hs.
    rewrite !elem_of_cons. destruct Hside as [-> | ->]; auto.
  - split; [done|]. intros (_ & _ & _ & _ & _ & Hin & _). done.
  - split; [done|]. intros (_ & -> & _ & Ht & Hn & _).
    destruct Hbad as [Hf|Hf]; [|done]. by destruct (text a).
  - split.
    + intros [= <- <-]. cbn [side text]. done.
    + intros ([= ->] & [= ->] & _ & _ & _ & _ & -> & ->). done.
Qed.

(** The witness of X22: an argument sent without author name by the user
    ann. *)
Lemma addArgument_stores_what_was_sent_witness :
  let ann := mkPayload 1 (lit "ann") in
  let a := mkArgument 50 7 (lit "against") (lit "x") (lit "ann")
                      (Some 1%N) 1000 1000 in
  addArgument ann 7 (Some (lit "against")) (Some (lit "x")) (Some [])
              50 1000 [debate7] two_against_one
  = (Json 201 a, two_against_one ++ [a]) ∧
  a = mkArgument 50 7 (side a) (text a) (or_else (Some []) (username ann))
        (Some (userId ann)) 1000 1000.
Proof.
  intros ann a.
  assert (H : addArgument ann 7 (Some (lit "against")) (Some (lit "x"))
                (Some []) 50 1000 [debate7] two_against_one
              = (Json 201 a, two_against_one ++ [a])) by reflexivity.
  split; [exact H|].
  apply (proj1 (addArgument_stores_what_was_sent _ _ _ _ _ _ _ _ _ _ _) H).
Defined.

(** X23: the handler stores at most one document, and only when it answers
    201: an answer 201 comes with the collection extended by the document
    of the answer, and every other answer is 400, 404 or 500 with the
    collection as it was. *)
Theorem addArgument_stores_only_on_201
    (user : Payload) (id : ObjectId)
    (sent_side sent_text sent_author : option jsstring)
    (fresh : ObjectId) (now : Z)
    (debates : list Debate) (coll : list Argument) :
  let r := addArgument user id sent_side sent_text sent_author fresh now
             debates coll in
  match r.1 with
  | Json status a => status = 201 ∧ r.2 = coll ++ [a]
  | Message status _ => status ∈ [400; 404; 500] ∧ r.2 = coll
  end.
Proof.
  cbv zeta.
  destruct (addArgument_cases user id sent_side sent_text sent_author
              fresh now debates coll)
    as [[Hs Hr]|[(Hs & Hd & Hr)|[(Hs & Hd & Hbad & Hr)|
        (s & t & -> & -> & Hs & Ht & Hn & Hd & Hr)]]];
    cbv zeta in Hr; rewrite Hr; cbn [fst snd]; (split; [|done]);
    rewrite ?elem_of_cons; auto.
Qed.

Lemma addArgument_keeps_stored_ok user id sent_side sent_text sent_author
    fresh now debates coll :
  Forall (λ a, stored_ok a ∧ debate a ∈ _id <$> debates) coll →
  Forall (λ a, stored_ok a ∧ debate a ∈ _id <$> debates)
    (addArgument user id sent_side sent_text sent_author fresh now
       debates coll).2.
Proof.
  intros Hcoll.
  destruct (addArgument_cases user id sent_side sent_text sent_author
              fresh now debates coll)
    as [[Hs Hr]|[(Hs & Hd & Hr)|[(Hs & Hd & Hbad & Hr)|
        (s & t & -> & -> & Hs & Ht & Hn & Hd & Hr)]]];
    cbv zeta in Hr; rewrite Hr; cbn [snd]; try done.
  apply Forall_app. split; [done|]. constructor; [|constructor].
  unfold stored_ok. cbn [side text authorName debate]. done.
Qed.

Lemma replay_stored_ok debates requests : ∀ coll,
  Forall (λ a, stored_ok a ∧ debate a ∈ _id <$> debates) coll →
  Forall (λ a, stored_ok a ∧ debate a ∈ _id <$> debates)
    (replay debates requests coll).
Proof.
  unfold replay. induction requests as [|r requests IH]; intros coll Hcoll;
    [done|].
  cbn [foldl]. apply IH. by apply addArgument_keeps_stored_ok.
Qed.

(** X24: every argument stored through the handler has the side ["for"]
    or ["against"], a text and an author name that are not empty, and
    belongs to one of the debates: the collection that a sequence of calls
    builds from an empty one has only such arguments. *)
Theorem stored_arguments_are_well_formed
    (debates : list Debate) (requests : list Request) :
  Forall (λ a, stored_ok a ∧ debate a ∈ _id <$> debates)
         (replay debates requests []).
Proof. apply replay_stored_ok. constructor. Qed.

(** X25: on a collection built through the handler the two statistics
    handlers meet no malformed argument: the list handler answers on the
    whole collection, without any [$in] filter, and in every debate the
    count [against] is the number of arguments of side ["against"]. *)
Theorem handlers_on_stored_arguments
    (debates : list Debate) (requests : list Request) :
  let coll := replay debates requests [] in
  Listing.computeStats debates coll
  = Some ((λ d, (d, Detail.computeStats (of_debate (_id d) coll)))
            <$> debates) ∧
  (∀ k : ObjectId,
     let st := Detail.computeStats (find_sorted k coll) in
     for_ st
     = length (filter (λ a, debate a = k ∧ side a = lit "for") coll) ∧
     against st
     = length (filter (λ a, debate a = k ∧ side a = lit "against") coll)).
Proof.
  cbv zeta.
  pose proof (replay_stored_ok debates requests [] (Forall_nil_2 _)) as Hok.
  set (coll := replay debates requests []) in *. clearbody coll.
  split.
  - apply listing_computeStats. intros a Ha.
    by destruct (proj1 (Forall_forall _ _) Hok a Ha).
  - intros k. rewrite (computeStats_perm _ _ (find_sorted_perm k coll)).
    rewrite computeStats_eq. cbn [for_ against].
    unfold for_side, against_side, is_for, of_debate.
    assert (Hwf : Forall (λ a, side a = lit "for" ∨ side a = lit "against")
                         (filter (λ a, debate a = k) coll)).
    { apply Forall_forall. intros a [_ Ha]%list_elem_of_filter.
      by destruct (proj1 (Forall_forall _ _) Hok a Ha) as [[? _] _]. }
    rewrite (against_when_well_formed _ Hwf), !list_filter_filter.
    split; f_equal; apply list_filter_iff; intros a; tauto.
Qed.

(** A replay that stores: the collection is not always empty. *)
Example replay_stores :
  replay [debate7]
    [mkRequest (mkPayload 1 (lit "ann")) 7 (Some (lit "for"))
               (Some (lit "x")) None 50 1000;
     mkRequest (mkPayload 1 (lit "ann")) 7 (Some (lit "maybe"))
               (Some (lit "y")) None 51 1001] []
  = [mkArgument 50 7 (lit "for") (lit "x") (lit "ann") (Some 1%N) 1000 1000].
Proof. reflexivity. Qed.

(** ** Adding an argument, then reading the debate *)

Lemma of_debate_snoc k coll a :
  of_debate k (coll ++ [a]) =
    if decide (debate a = k) then of_debate k coll ++ [a]
    else of_debate k coll.
Proof.
  unfold of_debate. rewrite filter_app, filter_cons, filter_nil.
  case_decide; [done|]. by rewrite (right_id_L [] (++)).
Qed.

Lemma computeStats_snoc l a :
  let st := Detail.computeStats l in
  let st' := Detail.computeStats (l ++ [a]) in
  (if decide (side a = lit "for")
   then for_ st' = for_ st + 1 ∧ against st' = against st ∧
        forPoints st' = forPoints st + points a ∧
        againstPoints st' = againstPoints st
   else for_ st' = for_ st ∧ against st' = against st + 1 ∧
        forPoints st' = forPoints st ∧
        againstPoints st' = againstPoints st + points a) ∧
  participants st ≤ participants st' ≤ participants st + 1.
Proof.
  cbv zeta. rewrite !computeStats_eq.
  cbn [for_ against forPoints againstPoints participants].
  rewrite for_side_app, against_side_app, !total_app, !length_app, authors_app.
  rewrite for_side_cons, against_side_cons. unfold is_for. split.
  - case_decide; cbn; lia.
  - split; [apply subseteq_size, union_subseteq_l|].
    rewrite size_union_alt.
    pose proof (subseteq_size (authors [a] ∖ authors l) (authors [a])
                  (subseteq_difference_l _ _ _ (reflexivity _))) as H.
    assert (H1 : size (authors [a]) = 1).
    { rewrite authors_cons. unfold authors. cbn.
      by rewrite (right_id_L ∅ (∪)), size_singleton. }
    lia.
Qed.

(** X26: after an answer 201 for a debate, the single-debate handler
    shows one argument more for that debate: the count of the side of the
    new argument grows by 1 and its points by 1 or 2 (2 from 120 code
    units), the other side is unchanged, the participants grow by at most
    1; the answers for the other debates are what they were. *)
Theorem addArgument_then_getDebate
    (user : Payload) (id : ObjectId)
    (sent_side sent_text sent_author : option jsstring)
    (fresh : ObjectId) (now : Z)
    (debates : list Debate) (coll coll' : list Argument) (a : Argument) :
  addArgument user id sent_side sent_text sent_author fresh now debates coll
  = (Json 201 a, coll') →
  ∃ (d : Debate) (l l' : list Argument) (st st' : Stats),
    getDebate id debates coll = Json 200 (d, l, st) ∧
    getDebate id debates coll' = Json 200 (d, l', st') ∧
    l' ≡ₚ l ++ [a] ∧
    (if decide (side a = lit "for")
     then for_ st' = for_ st + 1 ∧ against st' = against st ∧
          forPoints st' = forPoints st + points a ∧
          againstPoints st' = againstPoints st
     else for_ st' = for_ st ∧ against st' = against st + 1 ∧
          forPoints st' = forPoints st ∧
          againstPoints st' = againstPoints st + points a) ∧
    participants st ≤ participants st' ≤ participants st + 1 ∧
    ∀ k, k ≠ id → getDebate k debates coll' = getDebate k debates coll.
Proof.
  intros Hadd.
  destruct (addArgument_cases user id sent_side sent_text sent_author
              fresh now debates coll)
    as [[Hs Hr]|[(Hs & Hd & Hr)|[(Hs & Hd & Hbad & Hr)|
        (s & t & -> & -> & Hs & Ht & Hn & Hd & Hr)]]];
    cbv zeta in Hr; rewrite Hr in Hadd; try done.
  injection Hadd as <- <-. clear Hr.
  set (a := mkArgument fresh id s t _ _ now now).
  destruct (Debate_findById id debates) as [d|] eqn:Hfind;
    [|by apply Debate_findById_None in Hfind].
  assert (Hperm : find_sorted id (coll ++ [a]) ≡ₚ find_sorted id coll ++ [a]).
  { rewrite !find_sorted_perm, of_debate_snoc. by rewrite decide_True. }
  exists d, (find_sorted id coll), (find_sorted id (coll ++ [a])),
    (Detail.computeStats (find_sorted id coll)),
    (Detail.computeStats (find_sorted id (coll ++ [a]))).
  unfold getDebate. rewrite Hfind.
  split; [reflexivity|]. split; [reflexivity|]. split; [exact Hperm|].
  rewrite (computeStats_perm _ _ Hperm).
  destruct (computeStats_snoc (find_sorted id coll) a) as [H1 H2].
  split; [exact H1|]. split; [exact H2|].
  intros k Hk. destruct (Debate_findById k debates); [|done].
  unfold find_sorted. fold (of_debate k (coll ++ [a])). fold (of_debate k coll).
  rewrite of_debate_snoc. by rewrite decide_False by (cbn; congruence).
Qed.

(** The witness of X26: a fourth argument for debate 7. *)
Lemma addArgument_then_getDebate_witness :
  let ann := mkPayload 1 (lit "ann") in
  let a := mkArgument 50 7 (lit "for") (lit "x") (lit "ann")
                      (Some 1%N) 1000 1000 in
  addArgument ann 7 (Some (lit "for")) (Some (lit "x")) None
              50 1000 [debate7] two_against_one
  = (Json 201 a, two_against_one ++ [a]) ∧
  ∃ (d : Debate) (l l' : list Argument) (st st' : Stats),
    getDebate 7 [debate7] two_against_one = Json 200 (d, l, st) ∧
    getDebate 7 [debate7] (two_against_one ++ [a]) = Json 200 (d, l', st') ∧
    l' ≡ₚ l ++ [a] ∧
    participants st ≤ participants st' ≤ participants st + 1.
Proof.
  intros ann a.
  assert (H : addArgument ann 7 (Some (lit "for")) (Some (lit "x")) None
                50 1000 [debate7] two_against_one
              = (Json 201 a, two_against_one ++ [a])) by reflexivity.
  split; [exact H|].
  destruct (addArgument_then_getDebate _ _ _ _ _ _ _ _ _ _ _ H)
    as (d & l & l' & st & st' & H1 & H2 & H3 & _ & H5 & _).
  exists d, l, l', st, st'. auto.
Defined.

(** ** The keys of statsMap *)

Lemma listing_visit_dom m a m' : Listing.visit m a = Some m' → dom m' = dom m.
Proof.
  destruct (m !! debate a) as [e|] eqn:He.
  - rewrite (listing_visit _ _ _ He). intros [= <-].
    rewrite dom_insert_L. apply (elem_of_dom_2 (D:=gset N)) in He.
    apply set_eq. intros k. rewrite elem_of_union, elem_of_singleton.
    split; [intros [->|?]; done|auto].
  - by rewrite (listing_visit_undefined _ _ He).
Qed.

(** X27: the loop of the list handler never adds a key to [statsMap] and
    never removes one: when it ends without throwing, the keys are those it
    started with, the identifiers of the debates, so the alternative of
    [statsMap[d._id] || {...}] is never taken. *)
Theorem listing_keeps_the_keys
    (debates : list Debate) (l : list Argument)
    (statsMap : gmap N (Stats * gset (list N))) :
  Listing.forEach (Listing.init debates) l = Some statsMap →
  dom statsMap = list_to_set (_id <$> debates) ∧
  ∀ d, d ∈ debates → is_Some ((Listing.final <$> statsMap) !! _id d).
Proof.
  assert (Hrun : ∀ l m m', Listing.forEach m l = Some m' → dom m' = dom m).
  { clear. induction l as [|a l IH]; intros m m'; cbn [Listing.forEach].
    - by intros [= <-].
    - destruct (Listing.visit m a) as [m1|] eqn:Hv; [|done].
      intros H. rewrite (IH _ _ H). by apply listing_visit_dom in Hv. }
  intros H. apply Hrun in H.
  assert (Hdom : dom statsMap = list_to_set (_id <$> debates)).
  { rewrite H. apply set_eq. intros k.
    rewrite elem_of_dom, listing_init, elem_of_list_to_set.
    case_decide; split; try done; by intros []. }
  split; [exact Hdom|]. intros d Hd.
  rewrite lookup_fmap, fmap_is_Some. apply (elem_of_dom (D:=gset N)).
  rewrite Hdom, elem_of_list_to_set. by apply list_elem_of_fmap_2.
Qed.

(** The witness of X27: the sample arguments of debate 7 among two
    debates. *)
Lemma listing_keeps_the_keys_witness :
  let debates := [debate7; mkDebate 8 (lit "Vim") None 1] in
  ∃ statsMap,
    Listing.forEach (Listing.init debates) two_against_one = Some statsMap ∧
    dom statsMap = list_to_set (_id <$> debates).
Proof.
  intros debates.
  destruct (Listing.forEach (Listing.init debates) two_against_one)
    as [statsMap|] eqn:H; [|by vm_compute in H].
  exists statsMap. split; [reflexivity|].
  apply (listing_keeps_the_keys debates two_against_one statsMap H).
Defined.
